(** * Database migration service: a shallow embedding and its properties

    The development follows [src/services/database_migration.py].

    Conventions of the embedding.
    - A Python [str] is a [string] holding the UTF-8 encoding of the text, so
      that [content.encode('utf-8')] is the byte list of the string and the
      order [<] on [str] (by code point) is the byte-wise lexicographic
      order.  Operations that count characters ([s[:100]], [strip]) work on
      code points inside that encoding.
    - Python integers are [Z] where they may be negative ([steps]) and [nat]
      for counters.
    - Mutation of a [Migration] object is explicit state passing: a method
      that mutates its argument returns the object as it is afterwards.
    - Everything outside the process (console, migrations directory, wall
      clock, database connection) lives in a record [World]. *)

From Stdlib Require Import List String Ascii ZArith Bool Lia Arith.
From Stdlib Require Import Sorting.Sorted Sorting.Permutation.
Import ListNotations.

Local Open Scope string_scope.
Local Open Scope list_scope.

(* ------------------------------------------------------------------------ *)
(** ** Python string operations *)

Module PyStr.

Definition code (c : ascii) : Z := Z.of_N (N_of_ascii c).

Fixpoint rev_onto (s acc : string) : string :=
  match s with
  | EmptyString => acc
  | String c s' => rev_onto s' (String c acc)
  end.

Definition rev (s : string) : string := rev_onto s "".

Fixpoint drop (n : nat) (s : string) : string :=
  match n, s with
  | O, _ => s
  | S _, EmptyString => EmptyString
  | S n', String _ s' => drop n' s'
  end.

(** [s.startswith(p)] *)
Definition startswith (s p : string) : bool := String.prefix p s.

(** [s.endswith(p)] *)
Definition endswith (s p : string) : bool := String.prefix (rev p) (rev s).

(** [s.partition(sep)] for a non-empty [sep]: the text before the first
    occurrence of [sep] and the text after it, [None] when [sep] does not
    occur. *)
Fixpoint partition (sep s : string) : option (string * string) :=
  if String.prefix sep s then Some ("", drop (String.length sep) s)
  else match s with
       | EmptyString => None
       | String c s' =>
           match partition sep s' with
           | Some (before, after) => Some (String c before, after)
           | None => None
           end
       end.

(** [s.split(sep)] for a non-empty [sep].  Every cut consumes at least one
    character, so [length s] rounds are enough (see [split_rounds_enough]). *)
Fixpoint split_rounds (rounds : nat) (sep s : string) : list string :=
  match rounds with
  | O => [s]
  | S k =>
      match partition sep s with
      | None => [s]
      | Some (before, after) => before :: split_rounds k sep after
      end
  end.

Definition split (s sep : string) : list string :=
  split_rounds (String.length s) sep s.

(** [new.join(parts)] *)
Fixpoint join (new : string) (parts : list string) : string :=
  match parts with
  | [] => ""
  | [p] => p
  | p :: rest => p ++ new ++ join new rest
  end.

(** [s.replace(old, new)] for a non-empty [old]: every non-overlapping
    occurrence, scanning from the left. *)
Definition replace (s old new : string) : string := join new (split s old).

(** Characters for which [str.isspace()] holds, in UTF-8.  One byte:
    U+0009..U+000D, U+001C..U+001F, U+0020. *)
Definition space1 (c : ascii) : bool :=
  let n := code c in
  ((9 <=? n) && (n <=? 13) || (28 <=? n) && (n <=? 32))%Z.

(** Two bytes after the lead byte C2: U+0085, U+00A0. *)
Definition space2 (c1 c2 : ascii) : bool :=
  ((code c1 =? 194) && ((code c2 =? 133) || (code c2 =? 160)))%Z.

(** Three bytes: U+1680, U+2000..U+200A, U+2028, U+2029, U+202F, U+205F,
    U+3000. *)
Definition space3 (c1 c2 c3 : ascii) : bool :=
  let a := code c1 in let b := code c2 in let c := code c3 in
  ((a =? 225) && (b =? 154) && (c =? 128)
   || (a =? 226) && (b =? 128)
      && ((128 <=? c) && (c <=? 138) || (c =? 168) || (c =? 169) || (c =? 175))
   || (a =? 226) && (b =? 129) && (c =? 159)
   || (a =? 227) && (b =? 128) && (c =? 128))%Z.

(** [s.lstrip()] *)
Fixpoint lstrip (s : string) : string :=
  match s with
  | EmptyString => EmptyString
  | String c1 s1 =>
      if space1 c1 then lstrip s1
      else match s1 with
           | EmptyString => s
           | String c2 s2 =>
               if space2 c1 c2 then lstrip s2
               else match s2 with
                    | EmptyString => s
                    | String c3 s3 => if space3 c1 c2 c3 then lstrip s3 else s
                    end
           end
  end.

(** [lstrip] on the reversed text: the bytes of a character come last
    byte first. *)
Fixpoint lstrip_rev (s : string) : string :=
  match s with
  | EmptyString => EmptyString
  | String c1 s1 =>
      if space1 c1 then lstrip_rev s1
      else match s1 with
           | EmptyString => s
           | String c2 s2 =>
               if space2 c2 c1 then lstrip_rev s2
               else match s2 with
                    | EmptyString => s
                    | String c3 s3 => if space3 c3 c2 c1 then lstrip_rev s3 else s
                    end
           end
  end.

(** [s.rstrip()] and [s.strip()] *)
Definition rstrip (s : string) : string := rev (lstrip_rev (rev s)).
Definition strip (s : string) : string := rstrip (lstrip s).

(** A byte that continues a UTF-8 character (10xxxxxx). *)
Definition continuation (c : ascii) : bool :=
  ((128 <=? code c) && (code c <=? 191))%Z.

(** [s[:n]] for [n >= 0]: the first [n] characters. *)
Fixpoint take_chars (n : nat) (s : string) : string :=
  match s with
  | EmptyString => EmptyString
  | String c s' =>
      if continuation c then String c (take_chars n s')
      else match n with
           | O => EmptyString
           | S n' => String c (take_chars n' s')
           end
  end.

(** [a < b], [a <= b] and [a > b] on [str]. *)
Definition lt (a b : string) : bool := String.ltb a b.
Definition le (a b : string) : bool := String.leb a b.
Definition gt (a b : string) : bool := String.ltb b a.

(** Truth value of a [str]: the empty string is false. *)
Definition truthy (s : string) : bool :=
  match s with EmptyString => false | _ => true end.

End PyStr.

(* ------------------------------------------------------------------------ *)
(** ** [hashlib.sha256]

    SHA-256 of FIPS 180-4 on 32-bit words held in [Z], with the wrap-around
    written out.  The round constants and the initial state are computed
    from their definition (fractional parts of cube and square roots of the
    first primes). *)

Module Sha256.

Local Open Scope Z_scope.

Definition wrap (x : Z) : Z := x mod 2 ^ 32.
Definition add32 (x y : Z) : Z := wrap (x + y).
Definition rotr (n x : Z) : Z :=
  Z.lor (Z.shiftr x n) (wrap (Z.shiftl x (32 - n))).

Definition choose (x y z : Z) : Z :=
  Z.lxor (Z.land x y) (Z.land (Z.lnot x) z).
Definition majority (x y z : Z) : Z :=
  Z.lxor (Z.lxor (Z.land x y) (Z.land x z)) (Z.land y z).
Definition big_sigma0 (x : Z) : Z :=
  Z.lxor (Z.lxor (rotr 2 x) (rotr 13 x)) (rotr 22 x).
Definition big_sigma1 (x : Z) : Z :=
  Z.lxor (Z.lxor (rotr 6 x) (rotr 11 x)) (rotr 25 x).
Definition small_sigma0 (x : Z) : Z :=
  Z.lxor (Z.lxor (rotr 7 x) (rotr 18 x)) (Z.shiftr x 3).
Definition small_sigma1 (x : Z) : Z :=
  Z.lxor (Z.lxor (rotr 17 x) (rotr 19 x)) (Z.shiftr x 10).

Definition primes64 : list Z :=
  [2; 3; 5; 7; 11; 13; 17; 19; 23; 29; 31; 37; 41; 43; 47; 53;
   59; 61; 67; 71; 73; 79; 83; 89; 97; 101; 103; 107; 109; 113; 127; 131;
   137; 139; 149; 151; 157; 163; 167; 173; 179; 181; 191; 193; 197; 199;
   211; 223; 227; 229; 233; 239; 241; 251; 257; 263; 269; 271; 277; 281;
   283; 293; 307; 311].

(** Integer cube root, one bit at a time from bit [bits - 1] down. *)
Fixpoint cube_root_bits (bits : nat) (n r : Z) : Z :=
  match bits with
  | O => r
  | S b =>
      let r' := r + 2 ^ Z.of_nat b in
      cube_root_bits b n (if r' * r' * r' <=? n then r' else r)
  end.

Definition frac_cube_root (p : Z) : Z := wrap (cube_root_bits 40 (p * 2 ^ 96) 0).
Definition frac_square_root (p : Z) : Z := wrap (Z.sqrt (p * 2 ^ 64)).

Definition round_constants : list Z :=
  Eval vm_compute in map frac_cube_root primes64.

Record state := mk_state { ha : Z; hb : Z; hc : Z; hd : Z;
                           he : Z; hf : Z; hg : Z; hh : Z }.

Definition initial_state : state :=
  Eval vm_compute in
    match map frac_square_root (firstn 8 primes64) with
    | [a; b; c; d; e; f; g; h] => mk_state a b c d e f g h
    | _ => mk_state 0 0 0 0 0 0 0 0
    end.

(** Padding: a 1 bit, zeros up to 56 mod 64 bytes, the bit length on 64
    bits, big endian. *)
Definition big_endian (width : nat) (x : Z) : list Z :=
  map (fun i => Z.shiftr x (8 * Z.of_nat i) mod 256) (rev (seq 0 width)).

Definition pad (msg : list Z) : list Z :=
  let len := Z.of_nat (List.length msg) in
  msg ++ [128] ++ repeat 0 (Z.to_nat ((55 - len) mod 64)) ++ big_endian 8 (8 * len).

Fixpoint word_of_bytes (bs : list Z) (acc : Z) : Z :=
  match bs with
  | [] => acc
  | b :: bs' => word_of_bytes bs' (acc * 256 + b)
  end.

(** The sixteen message words of a 64-byte block. *)
Fixpoint words_of_block (n : nat) (block : list Z) : list Z :=
  match n with
  | O => []
  | S n' => word_of_bytes (firstn 4 block) 0 :: words_of_block n' (skipn 4 block)
  end.

(** Message schedule: [sched] holds W[t-1], W[t-2], ... (latest first). *)
Fixpoint extend_schedule (n : nat) (sched : list Z) : list Z :=
  match n with
  | O => sched
  | S n' =>
      let w := add32 (add32 (small_sigma1 (nth 1 sched 0)) (nth 6 sched 0))
                     (add32 (small_sigma0 (nth 14 sched 0)) (nth 15 sched 0)) in
      extend_schedule n' (w :: sched)
  end.

Definition schedule (block : list Z) : list Z :=
  rev (extend_schedule 48 (rev (words_of_block 16 block))).

Definition round (s : state) (kw : Z * Z) : state :=
  let t1 := add32 (add32 (add32 (hh s) (big_sigma1 (he s)))
                         (add32 (choose (he s) (hf s) (hg s)) (fst kw))) (snd kw) in
  let t2 := add32 (big_sigma0 (ha s)) (majority (ha s) (hb s) (hc s)) in
  mk_state (add32 t1 t2) (ha s) (hb s) (hc s) (add32 (hd s) t1) (he s) (hf s) (hg s).

Definition compress (s : state) (block : list Z) : state :=
  let r := fold_left round (combine round_constants (schedule block)) s in
  mk_state (add32 (ha s) (ha r)) (add32 (hb s) (hb r)) (add32 (hc s) (hc r))
           (add32 (hd s) (hd r)) (add32 (he s) (he r)) (add32 (hf s) (hf r))
           (add32 (hg s) (hg r)) (add32 (hh s) (hh r)).

Fixpoint blocks (n : nat) (bytes : list Z) (s : state) : state :=
  match n with
  | O => s
  | S n' => blocks n' (skipn 64 bytes) (compress s (firstn 64 bytes))
  end.

Definition digest (msg : list Z) : state :=
  let padded := pad msg in
  blocks (List.length padded / 64) padded initial_state.

Definition hex_digit (x : Z) : ascii :=
  nth (Z.to_nat (x mod 16))
      (list_ascii_of_string "0123456789abcdef") "0"%char.

Definition hex_word (x : Z) (rest : string) : string :=
  String (hex_digit (Z.shiftr x 28)) (String (hex_digit (Z.shiftr x 24))
 (String (hex_digit (Z.shiftr x 20)) (String (hex_digit (Z.shiftr x 16))
 (String (hex_digit (Z.shiftr x 12)) (String (hex_digit (Z.shiftr x 8))
 (String (hex_digit (Z.shiftr x 4)) (String (hex_digit x) rest))))))).

(** [hashlib.sha256(data).hexdigest()] *)
Definition hexdigest (msg : list Z) : string :=
  let s := digest msg in
  hex_word (ha s) (hex_word (hb s) (hex_word (hc s) (hex_word (hd s)
 (hex_word (he s) (hex_word (hf s) (hex_word (hg s) (hex_word (hh s) ""))))))).

End Sha256.

(** [content.encode('utf-8')]: the bytes of the text. *)
Definition encode_utf8 (content : string) : list Z :=
  map PyStr.code (list_ascii_of_string content).

(* ------------------------------------------------------------------------ *)
(** ** Data model *)

Inductive MigrationStatus : Type :=
| PENDING
| RUNNING
| COMPLETED
| FAILED
| ROLLED_BACK.

(** A [datetime] value, as a count of clock ticks. *)
Definition datetime : Type := Z.

Record Migration : Type := mk_Migration {
  version : string;
  name : string;
  description : string;
  up_sql : string;
  down_sql : string;
  checksum : string;
  applied_at : option datetime;
  status : MigrationStatus
}.

Definition set_status (m : Migration) (s : MigrationStatus) : Migration :=
  mk_Migration (version m) (name m) (description m) (up_sql m) (down_sql m)
               (checksum m) (applied_at m) s.

Definition set_applied_at (m : Migration) (t : option datetime) : Migration :=
  mk_Migration (version m) (name m) (description m) (up_sql m) (down_sql m)
               (checksum m) t (status m).

(** A [Dict[str, Migration]]: keys are unique, entries are kept in insertion
    order. *)
Definition dict : Type := list (string * Migration).

Definition keys (d : dict) : list string := map fst d.
Definition values (d : dict) : list Migration := map snd d.

(** [k in d] *)
Definition contains (d : dict) (k : string) : bool :=
  existsb (String.eqb k) (keys d).

(** [max(keys)] on a non-empty list of strings, [None] standing for the
    [ValueError] of an empty one. *)
Fixpoint max_str (l : list string) : option string :=
  match l with
  | [] => None
  | k :: rest =>
      match max_str rest with
      | None => Some k
      | Some k' => Some (if PyStr.lt k k' then k' else k)
      end
  end.

(** [l[-1]] when [l] is not empty. *)
Fixpoint last_item {A : Type} (l : list A) : option A :=
  match l with
  | [] => None
  | [x] => Some x
  | _ :: rest => last_item rest
  end.

(** [l[:k]] for any integer [k]: a negative [k] counts from the end. *)
Definition slice_to {A : Type} (l : list A) (k : Z) : list A :=
  if (k <? 0)%Z
  then firstn (Z.to_nat (Z.max 0 (Z.of_nat (List.length l) + k))) l
  else firstn (Z.to_nat k) l.

(** [sorted(l, key=key, reverse=reverse)] with string keys.  The sort is
    stable: items with equal keys keep their order, also under
    [reverse=True]. *)
Section Sorted.
Context {A : Type}.
Variable key : A -> string.
Variable reverse : bool.

Definition before (x y : A) : bool :=
  if reverse then PyStr.le (key y) (key x) else PyStr.le (key x) (key y).

Fixpoint insert (x : A) (l : list A) : list A :=
  match l with
  | [] => [x]
  | y :: l' => if before x y then x :: l else y :: insert x l'
  end.

Definition sorted (l : list A) : list A := fold_right insert [] l.
End Sorted.

(* ------------------------------------------------------------------------ *)
(** ** The world outside the process *)

(** - [stdout]: the lines printed so far, oldest first;
    - [directory]: the directory at [self.migrations_dir], [None] when it
      does not exist, else its files by name, in the order [os.listdir]
      reports them, with the text [f.read()] returns for each;
    - [clock]: what [datetime.now()] reads;
    - [database]: the statements executed so far over
      [self.connection_string]. *)
Record World : Type := mk_World {
  stdout : list string;
  directory : option (list (string * string));
  clock : datetime;
  database : list string
}.

Definition print (line : string) (w : World) : World :=
  mk_World (stdout w ++ [line]) (directory w) (clock w) (database w).

Definition datetime_now (w : World) : datetime := clock w.

(** [os.makedirs(self.migrations_dir)] *)
Definition makedirs (w : World) : World :=
  mk_World (stdout w) (Some []) (clock w) (database w).

(** [os.listdir(self.migrations_dir)] *)
Definition listdir (files : list (string * string)) : list string :=
  map fst files.

(** [open(filepath, 'r').read()] for a listed file. *)
Fixpoint read_file (files : list (string * string)) (filename : string) : string :=
  match files with
  | [] => ""
  | (f, content) :: rest =>
      if String.eqb f filename then content else read_file rest filename
  end.

(* ------------------------------------------------------------------------ *)
(** ** The service *)

(** [calculate_checksum] *)
Definition calculate_checksum (content : string) : string :=
  Sha256.hexdigest (encode_utf8 content).

(** The body of the loop of [load_migrations] once the file name has split
    in two parts. *)
Definition make_migration (version name content : string) : Migration :=
  let sections := PyStr.split content "-- DOWN" in
  let up_sql := PyStr.strip (PyStr.replace (nth 0 sections "") "-- UP" "") in
  let down_sql :=
    match sections with
    | _ :: section1 :: _ => PyStr.strip section1
    | _ => ""
    end in
  mk_Migration version name ("Migration " ++ version ++ ": " ++ name)
               up_sql down_sql (calculate_checksum up_sql) None PENDING.

Fixpoint load_loop (files : list (string * string)) (filenames : list string)
  : list Migration :=
  match filenames with
  | [] => []
  | filename :: rest =>
      if negb (PyStr.endswith filename ".sql") then load_loop files rest
      else
        let content := read_file files filename in
        match PyStr.split (PyStr.replace filename ".sql" "") "__" with
        | [version; name] =>
            make_migration version name content :: load_loop files rest
        | _ => load_loop files rest
        end
  end.

(** [load_migrations] *)
Definition load_migrations (w : World) : list Migration * World :=
  match directory w with
  | None => ([], makedirs w)
  | Some files =>
      (sorted version false
              (load_loop files (sorted (fun f => f) false (listdir files))), w)
  end.

(** [get_applied_migrations] *)
Definition get_applied_migrations (w : World) : dict * World := ([], w).

(** What a [try] body leaves behind: a value, or a raised exception with
    its message. *)
Inductive completion (A : Type) : Type :=
| Returns (a : A)
| Raises (message : string).
Arguments Returns {A} a.
Arguments Raises {A} message.

Definition check_mark : string := String "226" (String "156" (String "147" "")).
Definition ballot_x : string := String "226" (String "156" (String "151" "")).

(** The [try] body of [apply_migration]. *)
Definition apply_try (migration : Migration) (w : World)
  : completion bool * Migration * World :=
  let migration := set_status migration COMPLETED in
  let migration := set_applied_at migration (Some (datetime_now w)) in
  let w := print (check_mark ++ " Applied migration " ++ version migration
                    ++ ": " ++ name migration) w in
  (Returns true, migration, w).

(** Its [except Exception as e] handler. *)
Definition apply_except (e : string) (migration : Migration) (w : World)
  : bool * Migration * World :=
  let migration := set_status migration FAILED in
  let w := print (ballot_x ++ " Failed to apply migration " ++ version migration
                    ++ ": " ++ e) w in
  (false, migration, w).

(** [apply_migration] *)
Definition apply_migration (migration : Migration) (dry_run : bool) (w : World)
  : bool * Migration * World :=
  if dry_run then
    let w := print ("[DRY RUN] Would apply migration " ++ version migration
                      ++ ": " ++ name migration) w in
    let w := print ("SQL: " ++ PyStr.take_chars 100 (up_sql migration) ++ "...") w in
    (true, migration, w)
  else
    match apply_try migration w with
    | (Returns r, migration, w) => (r, migration, w)
    | (Raises e, migration, w) => apply_except e migration w
    end.

(** The [try] body of [rollback_migration]. *)
Definition rollback_try (migration : Migration) (w : World)
  : completion bool * Migration * World :=
  let migration := set_status migration ROLLED_BACK in
  let w := print (check_mark ++ " Rolled back migration " ++ version migration
                    ++ ": " ++ name migration) w in
  (Returns true, migration, w).

Definition rollback_except (e : string) (migration : Migration) (w : World)
  : bool * Migration * World :=
  let w := print (ballot_x ++ " Failed to rollback migration "
                    ++ version migration ++ ": " ++ e) w in
  (false, migration, w).

(** [rollback_migration] *)
Definition rollback_migration (migration : Migration) (dry_run : bool) (w : World)
  : bool * Migration * World :=
  if dry_run then
    let w := print ("[DRY RUN] Would rollback migration " ++ version migration
                      ++ ": " ++ name migration) w in
    let w := print ("SQL: " ++ PyStr.take_chars 100 (down_sql migration) ++ "...") w in
    (true, migration, w)
  else
    match rollback_try migration w with
    | (Returns r, migration, w) => (r, migration, w)
    | (Raises e, migration, w) => rollback_except e migration w
    end.

(** The methods that [migrate_up], [migrate_down] and
    [get_migration_status] call through [self]: a subclass or a test double
    may override each of them. *)
Record Service : Type := mk_Service {
  self_load_migrations : World -> list Migration * World;
  self_get_applied_migrations : World -> dict * World;
  self_apply_migration : Migration -> bool -> World -> bool * Migration * World;
  self_rollback_migration : Migration -> bool -> World -> bool * Migration * World
}.

(** The class as written. *)
Definition DatabaseMigrationService : Service :=
  mk_Service load_migrations get_applied_migrations
             apply_migration rollback_migration.

(** What a bulk operation did: its two counters, the calls it made to the
    single-step method (the object passed and the value returned, in call
    order) and the world it leaves. *)
Record Outcome : Type := mk_Outcome {
  successful : nat;
  failed : nat;
  calls : list (Migration * bool);
  world : World
}.

Definition counts (o : Outcome) : nat * nat := (successful o, failed o).

Definition logged (c : Migration * bool) (o : Outcome) : Outcome :=
  mk_Outcome (successful o) (failed o) (c :: calls o) (world o).

(** [target_version and migration.version > target_version] *)
Definition past_target (target_version : option string) (v : string) : bool :=
  match target_version with
  | None => false
  | Some t => PyStr.truthy t && PyStr.gt v t
  end.

(** The [for] loop of [migrate_up]. *)
Fixpoint migrate_up_loop (self : Service) (applied : dict)
    (target_version : option string) (dry_run : bool)
    (migrations : list Migration) (successful failed : nat) (w : World)
  : Outcome :=
  match migrations with
  | [] => mk_Outcome successful failed [] w
  | migration :: rest =>
      if contains applied (version migration) then
        migrate_up_loop self applied target_version dry_run rest successful failed w
      else if past_target target_version (version migration) then
        mk_Outcome successful failed [] w
      else
        match self_apply_migration self migration dry_run w with
        | (true, _, w) =>
            logged (migration, true)
              (migrate_up_loop self applied target_version dry_run rest
                               (S successful) failed w)
        | (false, _, w) =>
            mk_Outcome successful (S failed) [(migration, false)] w
        end
  end.

Definition migrate_up_run (self : Service) (target_version : option string)
    (dry_run : bool) (w : World) : Outcome :=
  let '(migrations, w) := self_load_migrations self w in
  let '(applied, w) := self_get_applied_migrations self w in
  migrate_up_loop self applied target_version dry_run migrations 0 0 w.

(** [migrate_up] *)
Definition migrate_up (self : Service) (target_version : option string)
    (dry_run : bool) (w : World) : (nat * nat) * World :=
  let o := migrate_up_run self target_version dry_run w in
  (counts o, world o).

(** The [for] loop of [migrate_down]. *)
Fixpoint migrate_down_loop (self : Service) (dry_run : bool)
    (migrations_to_rollback : list Migration) (successful failed : nat) (w : World)
  : Outcome :=
  match migrations_to_rollback with
  | [] => mk_Outcome successful failed [] w
  | migration :: rest =>
      match self_rollback_migration self migration dry_run w with
      | (true, _, w) =>
          logged (migration, true)
            (migrate_down_loop self dry_run rest (S successful) failed w)
      | (false, _, w) =>
          mk_Outcome successful (S failed) [(migration, false)] w
      end
  end.

Definition migrate_down_run (self : Service) (steps : Z) (dry_run : bool)
    (w : World) : Outcome :=
  let '(applied, w) := self_get_applied_migrations self w in
  let migrations_to_rollback := slice_to (sorted version true (values applied)) steps in
  migrate_down_loop self dry_run migrations_to_rollback 0 0 w.

(** [migrate_down] *)
Definition migrate_down (self : Service) (steps : Z) (dry_run : bool)
    (w : World) : (nat * nat) * World :=
  let o := migrate_down_run self steps dry_run w in
  (counts o, world o).

(** The dictionary [get_migration_status] returns. *)
Record StatusReport : Type := mk_StatusReport {
  total_migrations : nat;
  applied_count : nat;
  pending_count : nat;
  current_version : option string;
  latest_version : option string;
  pending_migrations : list string
}.

(** [get_migration_status] *)
Definition get_migration_status (self : Service) (w : World)
  : StatusReport * World :=
  let '(all_migrations, w) := self_load_migrations self w in
  let '(applied, w) := self_get_applied_migrations self w in
  let pending :=
    filter (fun m => negb (contains applied (version m))) all_migrations in
  (mk_StatusReport
     (List.length all_migrations)
     (List.length applied)
     (List.length pending)
     (match applied with [] => None | _ => max_str (keys applied) end)
     (option_map version (last_item all_migrations))
     (map version pending),
   w).

(* ------------------------------------------------------------------------ *)
(** ** Vocabulary of the statements *)

(** The longest prefix of [l] whose items all satisfy [p]. *)
Fixpoint take_while {A : Type} (p : A -> bool) (l : list A) : list A :=
  match l with
  | [] => []
  | x :: rest => if p x then x :: take_while p rest else []
  end.

Definition is_pending (applied : dict) (m : Migration) : bool :=
  negb (contains applied (version m)).

Definition within_target (t : string) (m : Migration) : bool :=
  PyStr.le (version m) t.

Definition ascending : list Migration -> Prop :=
  StronglySorted (fun a b => PyStr.le (version a) (version b) = true).

Definition descending : list Migration -> Prop :=
  StronglySorted (fun a b => PyStr.le (version b) (version a) = true).

Definition is_hex_digit (c : ascii) : Prop :=
  In c (list_ascii_of_string "0123456789abcdef").

(** The plan of [migrate_up]: the pending migrations before the first one
    past the target. *)
Definition up_plan (applied : dict) (target_version : option string)
    (migrations : list Migration) : list Migration :=
  take_while (fun m => negb (past_target target_version (version m)))
             (filter (is_pending applied) migrations).

(** The world after a history of [apply_migration] calls, each with its
    migration and its [dry_run] flag. *)
Definition after_applying (history : list (Migration * bool)) (w : World) : World :=
  fold_left (fun w c => snd (apply_migration (fst c) (snd c) w)) history w.

(** A call that returned [False] is the last call. *)
Definition stops_at_failure (log : list (Migration * bool)) : Prop :=
  forall earlier c later, log = earlier ++ c :: later -> snd c = false -> later = [].

(* ------------------------------------------------------------------------ *)
(** ** Sample data *)

Definition newline : string := String "010" "".

(** The migration file the test suite writes for [name]. *)
Definition sample_content (name : string) : string :=
  "-- UP" ++ newline
  ++ "CREATE TABLE test_" ++ name ++ " (" ++ newline
  ++ "    id SERIAL PRIMARY KEY," ++ newline
  ++ "    name VARCHAR(255) NOT NULL" ++ newline
  ++ ");" ++ newline ++ newline
  ++ "-- DOWN" ++ newline
  ++ "DROP TABLE test_" ++ name ++ ";" ++ newline.

Definition sample_file (version name : string) : string * string :=
  ((version ++ "__" ++ name ++ ".sql")%string, sample_content name).

(** A directory that lists V003, V001, V002 in that order. *)
Definition three_files : list (string * string) :=
  [sample_file "V003" "create_comments";
   sample_file "V001" "create_users";
   sample_file "V002" "create_posts"].

Definition two_files : list (string * string) :=
  [sample_file "V001" "create_users"; sample_file "V002" "create_posts"].

Definition world_with (files : list (string * string)) : World :=
  mk_World [] (Some files) 1700000000%Z [].

Definition sample_migration (version up down : string) : Migration :=
  mk_Migration version "sample" ("Migration " ++ version ++ ": sample")
               up down (calculate_checksum up) None PENDING.

(** A subclass whose [apply_migration] fails on one version. *)
Definition failing_apply (bad : string) (migration : Migration) (dry_run : bool)
    (w : World) : bool * Migration * World :=
  if String.eqb (version migration) bad
  then apply_except "boom" migration w
  else apply_migration migration dry_run w.

Definition ServiceFailingAt (bad : string) : Service :=
  mk_Service load_migrations get_applied_migrations
             (failing_apply bad) rollback_migration.

(** A subclass whose [get_applied_migrations] answers from a ledger. *)
Definition ServiceWithLedger (ledger : dict) : Service :=
  mk_Service load_migrations (fun w => (ledger, w))
             apply_migration rollback_migration.

(* ------------------------------------------------------------------------ *)
(** ** Vocabulary of the further properties *)

(** What [load_migrations] makes of a file name before it counts the parts. *)
Definition name_parts (filename : string) : list string :=
  PyStr.split (PyStr.replace filename ".sql" "") "__".

(** The file names [load_migrations] turns into a migration. *)
Definition well_named (filename : string) : bool :=
  PyStr.endswith filename ".sql" && Nat.eqb (List.length (name_parts filename)) 2.

(** [c] occurs in [s]. *)
Fixpoint has_char (c : ascii) (s : string) : bool :=
  match s with
  | EmptyString => false
  | String d s' => Ascii.eqb c d || has_char c s'
  end.

(** [c] occurs twice in a row in [s]. *)
Fixpoint has_pair (c : ascii) (s : string) : bool :=
  match s with
  | EmptyString => false
  | String a s' =>
      match s' with
      | EmptyString => false
      | String b _ => (Ascii.eqb c a && Ascii.eqb c b) || has_pair c s'
      end
  end.

(** The number of characters of a text: the bytes that do not continue a
    character. *)
Fixpoint char_count (s : string) : nat :=
  match s with
  | EmptyString => 0
  | String c s' => (if PyStr.continuation c then 0 else 1) + char_count s'
  end.

(** The directory [os.makedirs] leaves when there was none. *)
Definition provisioned (d : option (list (string * string)))
  : option (list (string * string)) :=
  match d with
  | None => Some []
  | Some files => Some files
  end.




(* ------------------------------------------------------------------------ *)
(** ** The order on strings *)

Section StringOrder.

Lemma ascii_compare_refl (a : ascii) : Ascii.compare a a = Eq.
Proof. unfold Ascii.compare. apply N.compare_refl. Qed.

Lemma compare_refl (s : string) : String.compare s s = Eq.
Proof.
  induction s as [|a s IH]; simpl; [reflexivity|].
  now rewrite ascii_compare_refl.
Qed.

Lemma ascii_compare_trans (a b c : ascii) (r : comparison) :
  Ascii.compare a b = r -> Ascii.compare b c = r -> Ascii.compare a c = r.
Proof.
  unfold Ascii.compare. intros H1 H2. destruct r.
  - apply N.compare_eq_iff in H1, H2. apply N.compare_eq_iff. congruence.
  - rewrite N.compare_lt_iff in *. lia.
  - rewrite N.compare_gt_iff in *. lia.
Qed.

(** [Lt] composes along [compare], with [Eq] as the neutral outcome. *)
Lemma compare_lt_trans (s1 : string) :
  forall s2 s3,
    String.compare s1 s2 <> Gt -> String.compare s2 s3 <> Gt ->
    String.compare s1 s3 <> Gt.
Proof.
  induction s1 as [|a s1 IH]; intros [|b s2] [|c s3]; simpl;
    try congruence.
  destruct (Ascii.compare a b) eqn:Hab; destruct (Ascii.compare b c) eqn:Hbc;
    try congruence; intros H12 H23.
  - rewrite (ascii_compare_trans _ _ _ _ Hab Hbc). now apply IH with s2.
  - apply Ascii.compare_eq_iff in Hab. subst b. now rewrite Hbc.
  - apply Ascii.compare_eq_iff in Hbc. subst c. now rewrite Hab.
  - now rewrite (ascii_compare_trans _ _ _ _ Hab Hbc).
Qed.

Lemma le_refl (s : string) : PyStr.le s s = true.
Proof. unfold PyStr.le, String.leb. now rewrite compare_refl. Qed.

Lemma le_iff (a b : string) : PyStr.le a b = true <-> String.compare a b <> Gt.
Proof.
  unfold PyStr.le, String.leb. destruct (String.compare a b); split; congruence.
Qed.

Lemma le_trans (a b c : string) :
  PyStr.le a b = true -> PyStr.le b c = true -> PyStr.le a c = true.
Proof. rewrite !le_iff. apply compare_lt_trans. Qed.

Lemma le_total (a b : string) : PyStr.le a b = true \/ PyStr.le b a = true.
Proof. apply String.leb_total. Qed.

Lemma le_antisym (a b : string) :
  PyStr.le a b = true -> PyStr.le b a = true -> a = b.
Proof. apply String.leb_antisym. Qed.

(** [a > b] is the negation of [a <= b]. *)
Lemma gt_not_le (a b : string) : PyStr.gt a b = negb (PyStr.le a b).
Proof.
  unfold PyStr.gt, PyStr.le, String.ltb, String.leb.
  rewrite (String.compare_antisym a b).
  now destruct (String.compare b a).
Qed.

Lemma gt_irrefl (a : string) : PyStr.gt a a = false.
Proof. now rewrite gt_not_le, le_refl. Qed.

End StringOrder.

(* ------------------------------------------------------------------------ *)
(** ** [split] has rounds to spare *)

Lemma prefix_length (p : string) :
  forall s, String.prefix p s = true -> String.length p <= String.length s.
Proof.
  induction p as [|c p IH]; intros [|d s]; simpl; try lia; try discriminate.
  destruct (ascii_dec c d); [|discriminate].
  intros H. apply IH in H. lia.
Qed.

Lemma drop_length (n : nat) :
  forall s, String.length (PyStr.drop n s) = String.length s - n.
Proof.
  induction n as [|n IH]; intros [|c s]; simpl; try lia. apply IH.
Qed.

(** Each cut leaves a shorter text. *)
Lemma partition_after_shorter (sep : string) (s : string) :
  sep <> "" ->
  forall before after,
    PyStr.partition sep s = Some (before, after) ->
    String.length after < String.length s.
Proof.
  intros Hsep. induction s as [|c s IH]; intros before after.
  - simpl. destruct sep; [congruence|]. discriminate.
  - cbn [PyStr.partition].
    destruct (String.prefix sep (String c s)) eqn:Hp.
    + intros H. inversion H; subst. apply prefix_length in Hp.
      rewrite drop_length. destruct sep; [congruence|]. simpl in *. lia.
    + destruct (PyStr.partition sep s) as [[b a]|]; [|discriminate].
      intros H. inversion H; subst. specialize (IH _ _ eq_refl). simpl. lia.
Qed.

Lemma split_rounds_enough (sep : string) :
  sep <> "" ->
  forall n m s,
    String.length s <= n -> String.length s <= m ->
    PyStr.split_rounds n sep s = PyStr.split_rounds m sep s.
Proof.
  intros Hsep.
  assert (Hempty : forall k, PyStr.split_rounds k sep "" = [""]).
  { intros [|k]; [reflexivity|]. simpl. destruct sep; [congruence|reflexivity]. }
  induction n as [|n IH]; intros m s Hn Hm.
  - destruct s; [|simpl in Hn; lia]. now rewrite !Hempty.
  - destruct m as [|m].
    + destruct s; [|simpl in Hm; lia]. now rewrite !Hempty.
    + simpl. destruct (PyStr.partition sep s) as [[b a]|] eqn:Hp; [|reflexivity].
      apply (partition_after_shorter sep s Hsep) in Hp.
      f_equal. apply IH; lia.
Qed.

(* ------------------------------------------------------------------------ *)
(** ** [sorted] sorts, permutes, and is determined by the items *)

Section SortedFacts.
Context {A : Type}.
Variable key : A -> string.
Variable reverse : bool.

Local Abbreviation bef := (before key reverse).
Local Abbreviation ins := (insert key reverse).
Local Abbreviation srt := (sorted key reverse).

Definition in_order (x y : A) : Prop := bef x y = true.

Lemma before_total (x y : A) : in_order x y \/ in_order y x.
Proof. unfold in_order, before. destruct reverse; apply le_total. Qed.

Lemma before_trans (x y z : A) : in_order x y -> in_order y z -> in_order x z.
Proof.
  unfold in_order, before. destruct reverse; intros H1 H2.
  - exact (le_trans _ _ _ H2 H1).
  - exact (le_trans _ _ _ H1 H2).
Qed.

Lemma insert_perm (x : A) (l : list A) : Permutation (ins x l) (x :: l).
Proof.
  induction l as [|y l IH]; simpl; [reflexivity|].
  destruct (bef x y); [reflexivity|].
  rewrite IH. apply perm_swap.
Qed.

Lemma sorted_perm (l : list A) : Permutation (srt l) l.
Proof.
  induction l as [|x l IH]; simpl; [reflexivity|].
  rewrite insert_perm. now constructor.
Qed.

Lemma insert_in_order (x : A) (l : list A) :
  StronglySorted in_order l -> StronglySorted in_order (ins x l).
Proof.
  induction 1 as [|y l Hl IH Hy]; simpl.
  - repeat constructor.
  - destruct (bef x y) eqn:Hxy.
    + constructor; [now constructor|].
      constructor; [exact Hxy|].
      eapply Forall_impl; [|exact Hy]. intros z Hz.
      now apply before_trans with y.
    + constructor; [exact IH|].
      assert (Hyx : in_order y x).
      { destruct (before_total x y) as [H|H]; [unfold in_order in H; congruence|exact H]. }
      rewrite (Forall_forall (in_order y)). intros z Hz.
      apply (Permutation_in _ (insert_perm x l)) in Hz.
      destruct Hz as [<-|Hz]; [exact Hyx|].
      rewrite Forall_forall in Hy. now apply Hy.
Qed.

Lemma sorted_in_order (l : list A) : StronglySorted in_order (srt l).
Proof.
  induction l as [|x l IH]; simpl; [constructor|].
  now apply insert_in_order.
Qed.

Lemma sorted_length (l : list A) : List.length (srt l) = List.length l.
Proof. apply Permutation_length, sorted_perm. Qed.

Lemma sorted_In (x : A) (l : list A) : In x (srt l) <-> In x l.
Proof.
  split; apply Permutation_in; [|symmetry]; apply sorted_perm.
Qed.

(** The sort is stable: the items of one key keep their order. *)
Lemma insert_same_key (k : string) (x : A) (l : list A) :
  filter (fun y => String.eqb (key y) k) (ins x l)
  = filter (fun y => String.eqb (key y) k) (x :: l).
Proof.
  induction l as [|y l IH]; [reflexivity|].
  cbn [insert]. destruct (bef x y) eqn:Hxy; [reflexivity|].
  cbn [filter] in *. rewrite IH.
  destruct (String.eqb_spec (key x) k) as [Hx|Hx]; [|reflexivity].
  destruct (String.eqb_spec (key y) k) as [Hy|Hy]; [|reflexivity].
  exfalso. unfold before in Hxy. rewrite Hx, Hy in Hxy.
  rewrite le_refl in Hxy. now destruct reverse.
Qed.

Lemma sorted_stable (k : string) (l : list A) :
  filter (fun y => String.eqb (key y) k) (srt l)
  = filter (fun y => String.eqb (key y) k) l.
Proof.
  induction l as [|x l IH]; [reflexivity|].
  cbn [sorted fold_right]. rewrite insert_same_key. cbn [filter].
  fold (srt l). now rewrite IH.
Qed.

End SortedFacts.

(** Two sorted lists with the same items are equal when the order
    separates different items. *)
Lemma in_order_unique {A : Type} (R : A -> A -> Prop)
    (antisym : forall x y, R x y -> R y x -> x = y) (l1 : list A) :
  forall l2,
    StronglySorted R l1 -> StronglySorted R l2 -> Permutation l1 l2 -> l1 = l2.
Proof.
  induction l1 as [|x l1 IH]; intros l2 S1 S2 P.
  - now apply Permutation_nil in P.
  - destruct l2 as [|y l2].
    + symmetry in P. now apply Permutation_nil in P.
    + inversion S1 as [|? ? S1' F1]; inversion S2 as [|? ? S2' F2]; subst.
      assert (E : x = y).
      { assert (Hx : In x (y :: l2)) by (eapply Permutation_in; [exact P|now left]).
        assert (Hy : In y (x :: l1))
          by (eapply Permutation_in; [symmetry; exact P|now left]).
        destruct Hx as [Hx|Hx]; [now symmetry|].
        destruct Hy as [Hy|Hy]; [exact Hy|].
        rewrite Forall_forall in F1, F2. apply antisym; auto. }
      subst y. f_equal. apply IH; auto.
      now apply Permutation_cons_inv with x.
Qed.


(** [load_migrations] ends with [sorted(..., key=version)]. *)
Lemma load_migrations_ascending (w : World) : ascending (fst (load_migrations w)).
Proof.
  unfold load_migrations. destruct (directory w) as [files|]; simpl.
  - exact (sorted_in_order version false _).
  - constructor.
Qed.

(* ------------------------------------------------------------------------ *)
(** ** Single steps: [apply_migration] and [rollback_migration] *)

Lemma print_frame (line : string) (w : World) :
  directory (print line w) = directory w
  /\ clock (print line w) = clock w
  /\ database (print line w) = database w.
Proof. now unfold print. Qed.

Lemma apply_dry_run_eq (m : Migration) (w : World) :
  apply_migration m true w
  = (true, m,
     print ("SQL: " ++ PyStr.take_chars 100 (up_sql m) ++ "...")
       (print ("[DRY RUN] Would apply migration " ++ version m ++ ": " ++ name m) w)).
Proof. reflexivity. Qed.

Lemma rollback_dry_run_eq (m : Migration) (w : World) :
  rollback_migration m true w
  = (true, m,
     print ("SQL: " ++ PyStr.take_chars 100 (down_sql m) ++ "...")
       (print ("[DRY RUN] Would rollback migration " ++ version m ++ ": " ++ name m) w)).
Proof. reflexivity. Qed.


Lemma rollback_migration_true (m : Migration) (dry_run : bool) (w : World) :
  fst (fst (rollback_migration m dry_run w)) = true.
Proof. now destruct dry_run. Qed.

(** C10.  In dry-run mode [apply_migration] and [rollback_migration] return
    [True] for every migration and hand the migration object back as it was
    (same [status], same [applied_at]); the only effect is two lines on the
    console: the directory, the clock and the database are untouched and
    [get_applied_migrations] answers as before.  The [except] handlers, the
    only places that report a failed execution, are not on these paths. *)
Theorem dry_run_leaves_migration_and_ledger (m : Migration) (w : World) :
  (exists w',
      apply_migration m true w = (true, m, w')
      /\ stdout w' = stdout w
                     ++ [("[DRY RUN] Would apply migration " ++ version m ++ ": " ++ name m)%string;
                         ("SQL: " ++ PyStr.take_chars 100 (up_sql m) ++ "...")%string]
      /\ directory w' = directory w /\ clock w' = clock w
      /\ database w' = database w
      /\ fst (get_applied_migrations w') = fst (get_applied_migrations w))
  /\ (exists w',
      rollback_migration m true w = (true, m, w')
      /\ stdout w' = stdout w
                     ++ [("[DRY RUN] Would rollback migration " ++ version m ++ ": " ++ name m)%string;
                         ("SQL: " ++ PyStr.take_chars 100 (down_sql m) ++ "...")%string]
      /\ directory w' = directory w /\ clock w' = clock w
      /\ database w' = database w
      /\ fst (get_applied_migrations w') = fst (get_applied_migrations w)).
Proof.
  split.
  - eexists. split; [apply apply_dry_run_eq|].
    unfold print; simpl. rewrite <- app_assoc. now repeat split.
  - eexists. split; [apply rollback_dry_run_eq|].
    unfold print; simpl. rewrite <- app_assoc. now repeat split.
Qed.

(** C4, as stated, fails: a migration whose [up_sql] is empty passes a
    dry-run [apply_migration]. *)
Lemma dry_run_apply_accepts_empty_up_sql :
  up_sql (sample_migration "V001" "" "DROP TABLE t;") = ""
  /\ fst (fst (apply_migration (sample_migration "V001" "" "DROP TABLE t;")
                               true (world_with []))) = true.
Proof. split; reflexivity. Qed.

(** C4, amended.  A dry-run [apply_migration] does not look at [up_sql]: it
    returns [True] for every migration, whatever its [up_sql], empty or not,
    hands the migration back unchanged and leaves the directory and the
    database alone. *)
Theorem dry_run_apply_never_validates (m : Migration) (w : World) :
  let '(ok, m', w') := apply_migration m true w in
  ok = true /\ m' = m /\ database w' = database w /\ directory w' = directory w.
Proof. rewrite apply_dry_run_eq. now repeat split. Qed.




(* ------------------------------------------------------------------------ *)
(** ** Bulk operations: counters and call log of the loops *)

Section Loops.
Variable self : Service.
Variable applied : dict.
Variable target_version : option string.
Variable dry_run : bool.

Local Abbreviation up_loop :=
  (migrate_up_loop self applied target_version dry_run).

Lemma count_split (log : list (Migration * bool)) :
  List.length log
  = List.length (filter snd log)
    + List.length (filter (fun c => negb (snd c)) log).
Proof.
  induction log as [|[m []] log IH]; simpl; lia.
Qed.

Lemma stops_at_failure_nil : stops_at_failure [].
Proof. intros [|? ?] c later H; discriminate. Qed.

Lemma stops_at_failure_single (c : Migration * bool) : stops_at_failure [c].
Proof.
  intros [|? [|? ?]] c' later H Hc; inversion H; subst; try reflexivity.
Qed.

Lemma stops_at_failure_cons (m : Migration) (log : list (Migration * bool)) :
  stops_at_failure log -> stops_at_failure ((m, true) :: log).
Proof.
  intros Hlog [|c0 earlier] c later H Hc; inversion H; subst.
  - discriminate.
  - eapply Hlog; eauto.
Qed.

(** The counters count the calls: [successful] those that returned [True],
    [failed] those that returned [False], of which there is at most one,
    the last. *)
Lemma migrate_up_loop_counts (migrations : list Migration) :
  forall s f w,
    let o := up_loop migrations s f w in
    successful o = s + List.length (filter snd (calls o))
    /\ failed o = f + List.length (filter (fun c => negb (snd c)) (calls o))
    /\ failed o <= f + 1
    /\ stops_at_failure (calls o).
Proof.
  induction migrations as [|m rest IH]; intros s f w; simpl.
  - repeat split; try lia. apply stops_at_failure_nil.
  - destruct (contains applied (version m)); [apply IH|].
    destruct (past_target target_version (version m)).
    { simpl. repeat split; try lia. apply stops_at_failure_nil. }
    destruct (self_apply_migration self m dry_run w) as [[[] m'] w'].
    + destruct (IH (S s) f w') as (Hs & Hf & Hle & Hstop).
      simpl. repeat split; try lia. now apply stops_at_failure_cons.
    + simpl. repeat split; try lia. apply stops_at_failure_single.
Qed.

(** The migrations the loop hands to [apply_migration] are the first ones
    of its plan.  When no call fails they are the whole plan. *)
Local Abbreviation plan := (up_plan applied target_version).

Lemma migrate_up_loop_plan (migrations : list Migration) :
  forall s f w,
    let o := up_loop migrations s f w in
    (exists rest, plan migrations = map fst (calls o) ++ rest)
    /\ (failed o = f -> map fst (calls o) = plan migrations
                        /\ Forall (fun c => snd c = true) (calls o)).
Proof.
  unfold up_plan.
  induction migrations as [|m rest IH]; intros s f w; simpl.
  - split; [now exists []|]. now split.
  - replace (is_pending applied m) with (negb (contains applied (version m)))
      by reflexivity.
    destruct (contains applied (version m)); simpl; [apply IH|].
    destruct (past_target target_version (version m)); simpl.
    { split; [now exists []|]. now split. }
    destruct (self_apply_migration self m dry_run w) as [[[] m'] w'].
    + destruct (IH (S s) f w') as ([tl Htl] & Hall). simpl. split.
      * exists tl. now rewrite Htl.
      * intros Hf. destruct (Hall Hf) as [E F]. split; [now rewrite E|].
        now constructor.
    + simpl. split; [now eexists|]. lia.
Qed.

Local Abbreviation down_loop := (migrate_down_loop self dry_run).

Lemma migrate_down_loop_counts (migrations : list Migration) :
  forall s f w,
    let o := down_loop migrations s f w in
    successful o = s + List.length (filter snd (calls o))
    /\ failed o = f + List.length (filter (fun c => negb (snd c)) (calls o))
    /\ failed o <= f + 1
    /\ stops_at_failure (calls o).
Proof.
  induction migrations as [|m rest IH]; intros s f w; simpl.
  - repeat split; try lia. apply stops_at_failure_nil.
  - destruct (self_rollback_migration self m dry_run w) as [[[] m'] w'].
    + destruct (IH (S s) f w') as (Hs & Hf & Hle & Hstop).
      simpl. repeat split; try lia. now apply stops_at_failure_cons.
    + simpl. repeat split; try lia. apply stops_at_failure_single.
Qed.

Lemma migrate_down_loop_plan (migrations : list Migration) :
  forall s f w,
    let o := down_loop migrations s f w in
    (exists rest, migrations = map fst (calls o) ++ rest)
    /\ (failed o = f -> map fst (calls o) = migrations
                        /\ Forall (fun c => snd c = true) (calls o)).
Proof.
  induction migrations as [|m rest IH]; intros s f w; simpl.
  - split; [now exists []|]. now split.
  - destruct (self_rollback_migration self m dry_run w) as [[[] m'] w'].
    + destruct (IH (S s) f w') as ([tl Htl] & Hall). simpl. split.
      * exists tl. now rewrite Htl at 1.
      * intros Hf. destruct (Hall Hf) as [E F]. split; [now rewrite E|].
        now constructor.
    + simpl. split; [now eexists|]. lia.
Qed.


Lemma migrate_down_loop_never_fails (migrations : list Migration) :
  (forall m w, fst (fst (self_rollback_migration self m dry_run w)) = true) ->
  forall s f w, failed (down_loop migrations s f w) = f.
Proof.
  intros Hok. induction migrations as [|m rest IH]; intros s f w; simpl.
  - reflexivity.
  - specialize (Hok m w).
    destruct (self_rollback_migration self m dry_run w) as [[[] m'] w'].
    + apply IH.
    + discriminate.
Qed.

End Loops.

(* ------------------------------------------------------------------------ *)
(** ** The class as written: nothing fails, nothing is recorded *)


Lemma filter_none_applied (l : list Migration) :
  filter (fun m => negb (contains [] (version m))) l = l.
Proof. induction l as [|m l IH]; simpl in *; congruence. Qed.

(** C5.  [get_applied_migrations] returns the empty dictionary in every
    world.  Hence [migrate_down] makes no call to [rollback_migration],
    returns [(0, 0)] and leaves the world as it was, for every [steps] and
    either mode; and [get_migration_status] reports [applied_count = 0],
    [current_version = None] and every loaded migration as pending.  This
    holds in particular in the world any history of [apply_migration] calls
    leaves behind. *)
Theorem applied_migrations_always_empty :
  (forall w, get_applied_migrations w = ([], w))
  /\ (forall steps dry_run w,
         migrate_down DatabaseMigrationService steps dry_run w = ((0, 0), w)
         /\ calls (migrate_down_run DatabaseMigrationService steps dry_run w) = [])
  /\ (forall w,
         let report := fst (get_migration_status DatabaseMigrationService w) in
         applied_count report = 0
         /\ current_version report = None
         /\ pending_migrations report = map version (fst (load_migrations w))
         /\ pending_count report = total_migrations report)
  /\ (forall history w steps dry_run,
         let w' := after_applying history w in
         let report := fst (get_migration_status DatabaseMigrationService w') in
         fst (get_applied_migrations w') = []
         /\ fst (migrate_down DatabaseMigrationService steps dry_run w') = (0, 0)
         /\ applied_count report = 0
         /\ current_version report = None
         /\ pending_migrations report = map version (fst (load_migrations w'))).
Proof.
  assert (Hdown : forall steps dry_run w,
             migrate_down_run DatabaseMigrationService steps dry_run w
             = mk_Outcome 0 0 [] w).
  { intros steps dry_run w. unfold migrate_down_run, slice_to. simpl.
    destruct (steps <? 0)%Z; now rewrite firstn_nil. }
  assert (Hstatus : forall w,
             let report := fst (get_migration_status DatabaseMigrationService w) in
             applied_count report = 0
             /\ current_version report = None
             /\ pending_migrations report = map version (fst (load_migrations w))
             /\ pending_count report = total_migrations report).
  { intros w. unfold get_migration_status.
    cbn [self_load_migrations self_get_applied_migrations DatabaseMigrationService].
    unfold get_applied_migrations.
    destruct (load_migrations w) as [all_migrations w1].
    rewrite filter_none_applied. now repeat split. }
  split; [reflexivity|]. split; [|split].
  - intros steps dry_run w. unfold migrate_down. now rewrite Hdown.
  - exact Hstatus.
  - intros history w steps dry_run. simpl.
    destruct (Hstatus (after_applying history w)) as (H1 & H2 & H3 & _).
    unfold migrate_down. rewrite Hdown. now repeat split.
Qed.

(* ------------------------------------------------------------------------ *)
(** ** [migrate_up]: halting at the first failure *)

(** C2.  For every service object (whatever its [load_migrations],
    [get_applied_migrations] and [apply_migration] do), target and mode:
    [migrate_up] counts in [failed] the calls of [apply_migration] that
    returned [False], there is at most one, and it is the last call made.
    In particular, when three pending migrations are loaded, the first
    applies and the second fails, the result is [(1, 1)], the calls made are
    those for the first and the second, and the world is the one the failing
    call left. *)
Theorem migrate_up_stops_at_first_failure
    (self : Service) (target_version : option string) (dry_run : bool) (w : World) :
  let o := migrate_up_run self target_version dry_run w in
  fst (migrate_up self target_version dry_run w) = (successful o, failed o)
  /\ failed o <= 1
  /\ successful o = List.length (filter snd (calls o))
  /\ failed o = List.length (filter (fun c => negb (snd c)) (calls o))
  /\ stops_at_failure (calls o)
  /\ (forall m1 m2 m3 w0 applied w1 m1' w2 m2' w3,
         self_load_migrations self w = ([m1; m2; m3], w0) ->
         self_get_applied_migrations self w0 = (applied, w1) ->
         Forall (fun m => contains applied (version m) = false) [m1; m2; m3] ->
         target_version = None ->
         self_apply_migration self m1 dry_run w1 = (true, m1', w2) ->
         self_apply_migration self m2 dry_run w2 = (false, m2', w3) ->
         fst (migrate_up self target_version dry_run w) = (1, 1)
         /\ calls o = [(m1, true); (m2, false)]
         /\ world o = w3).
Proof.
  unfold migrate_up. split; [reflexivity|].
  unfold migrate_up_run.
  destruct (self_load_migrations self w) as [migrations wl] eqn:Hload.
  destruct (self_get_applied_migrations self wl) as [ledger wa] eqn:Happlied.
  destruct (migrate_up_loop_counts self ledger target_version dry_run migrations 0 0 wa)
    as (Hs & Hf & Hle & Hstop).
  repeat (split; [assumption || lia|]).
  intros m1 m2 m3 w0 applied w1 m1' w2 m2' w3 Hl Ha Hpending -> H1 H2.
  inversion Hl; subst. rewrite Happlied in Ha. inversion Ha; subst.
  inversion Hpending as [|? ? P1 Hp2]; subst.
  inversion Hp2 as [|? ? P2 _]; subst.
  simpl. rewrite P1, P2, H1, H2. simpl. now repeat split.
Qed.

(** Three files, [apply_migration] overridden to fail on V002: V001 is
    applied, V002 fails, V003 is never tried. *)
Lemma migrate_up_stops_at_first_failure_witness :
  fst (migrate_up (ServiceFailingAt "V002") None false (world_with three_files)) = (1, 1)
  /\ map (fun c => (version (fst c), snd c))
         (calls (migrate_up_run (ServiceFailingAt "V002") None false
                                (world_with three_files)))
     = [("V001", true); ("V002", false)].
Proof.
  pose (self := ServiceFailingAt "V002").
  pose (w := world_with three_files).
  destruct (self_load_migrations self w) as [ms w0] eqn:Hload.
  vm_compute in Hload. inversion Hload as [[Hms Hw0]]. clear Hload.
  destruct (migrate_up_stops_at_first_failure self None false w)
    as (_ & _ & _ & _ & _ & Hthree).
  match type of Hms with
  | [?a; ?b; ?c] = _ =>
      specialize (Hthree a b c w [] w
                         (set_applied_at (set_status a COMPLETED) (Some (clock w)))
                         (snd (apply_migration a false w))
                         (set_status b FAILED)
                         (snd (failing_apply "V002" b false
                                             (snd (apply_migration a false w)))))
  end.
  destruct Hthree as (Hcounts & Hcalls & _);
    try (vm_compute; reflexivity).
  - repeat constructor.
  - split; [exact Hcounts|]. fold self w. rewrite Hcalls. reflexivity.
Defined.

(* ------------------------------------------------------------------------ *)
(** ** [migrate_up]: the target version *)

Lemma take_while_ext {A : Type} (p q : A -> bool) (l : list A) :
  (forall x, p x = q x) -> take_while p l = take_while q l.
Proof.
  intros E. induction l as [|x l IH]; simpl; [reflexivity|].
  rewrite E, IH. reflexivity.
Qed.

(** With a non-empty target the plan keeps the pending migrations up to and
    including the target. *)
Lemma up_plan_with_target (applied : dict) (t : string) (migrations : list Migration) :
  t <> "" ->
  up_plan applied (Some t) migrations
  = take_while (within_target t) (filter (is_pending applied) migrations).
Proof.
  intros Ht. unfold up_plan. apply take_while_ext. intros m.
  unfold past_target, within_target. rewrite gt_not_le.
  destruct t; [congruence|]. simpl. now rewrite negb_involutive.
Qed.

Lemma take_while_Forall {A : Type} (p : A -> bool) (l : list A) :
  Forall (fun x => p x = true) (take_while p l).
Proof.
  induction l as [|x l IH]; simpl; [constructor|].
  destruct (p x) eqn:E; now constructor.
Qed.

Lemma take_while_incl {A : Type} (p : A -> bool) (l : list A) :
  incl (take_while p l) l.
Proof.
  induction l as [|x l IH]; simpl; [easy|].
  destruct (p x); [|easy].
  intros y [<-|Hy]; [now left|right; now apply IH].
Qed.

Lemma ascending_filter (f : Migration -> bool) (l : list Migration) :
  ascending l -> ascending (filter f l).
Proof.
  unfold ascending. induction 1 as [|x l Hl IH Hx]; simpl; [constructor|].
  destruct (f x); [|exact IH].
  constructor; [exact IH|].
  rewrite Forall_forall in *. intros y Hy. apply Hx.
  now apply filter_In in Hy.
Qed.

Lemma ascending_take_while (p : Migration -> bool) (l : list Migration) :
  ascending l -> ascending (take_while p l).
Proof.
  unfold ascending. induction 1 as [|x l Hl IH Hx]; simpl; [constructor|].
  destruct (p x); [|constructor].
  constructor; [exact IH|].
  rewrite Forall_forall in *. intros y Hy. apply Hx.
  now apply take_while_incl in Hy.
Qed.

Lemma ascending_prefix (l1 l2 : list Migration) :
  ascending (l1 ++ l2) -> ascending l1.
Proof.
  unfold ascending. induction l1 as [|x l1 IH]; simpl; intros H; [constructor|].
  inversion H as [|? ? Hl Hx]; subst. constructor; [now apply IH|].
  rewrite Forall_forall in *. intros y Hy. apply Hx, in_or_app. now left.
Qed.

(** In an ascending list, a pending migration at the target is in the plan. *)
Lemma target_in_plan (applied : dict) (t : string) (migrations : list Migration) :
  ascending migrations ->
  forall m, In m migrations -> version m = t -> is_pending applied m = true ->
            In m (take_while (within_target t) (filter (is_pending applied) migrations)).
Proof.
  unfold ascending. induction 1 as [|x l Hl IH Hx]; intros m Hin Hv Hp; [easy|].
  assert (Hxt : within_target t x = true).
  { unfold within_target. destruct Hin as [->|Hin].
    - rewrite Hv. apply le_refl.
    - rewrite Forall_forall in Hx. rewrite <- Hv. now apply Hx. }
  simpl. destruct Hin as [->|Hin].
  - rewrite Hp. simpl. rewrite Hxt. now left.
  - destruct (is_pending applied x); simpl.
    + rewrite Hxt. right. now apply IH.
    + now apply IH.
Qed.

(** C8, as stated, fails for the empty target: [""] counts as no target, so
    [migrate_up("")] applies V001 and V002 although both are greater
    than [""]. *)
Lemma migrate_up_ignores_empty_target :
  let o := migrate_up_run DatabaseMigrationService (Some "") false (world_with two_files) in
  map (fun c => (version (fst c), snd c)) (calls o) = [("V001", true); ("V002", true)]
  /\ counts o = (2, 0)
  /\ PyStr.gt "V001" "" = true
  /\ PyStr.gt "V002" "" = true.
Proof. vm_compute. repeat split. Qed.

(** C8, amended.  For every non-empty target version [t], every service
    object and every loaded list: [migrate_up] hands to [apply_migration],
    in list order, only migrations whose version is not a key of the
    applied mapping and is not greater than [t]; they are the first items
    of the pending migrations taken up to the first one greater than [t],
    and all of them when no call fails.  When the loaded list is ascending,
    so is the sequence of calls, and a pending migration whose version
    equals [t] is applied. *)
Theorem migrate_up_stops_after_target
    (self : Service) (t : string) (dry_run : bool) (w w0 w1 : World)
    (migrations : list Migration) (applied : dict) :
  t <> "" ->
  self_load_migrations self w = (migrations, w0) ->
  self_get_applied_migrations self w0 = (applied, w1) ->
  let o := migrate_up_run self (Some t) dry_run w in
  let planned :=
    take_while (within_target t) (filter (is_pending applied) migrations) in
  (exists rest, planned = map fst (calls o) ++ rest)
  /\ Forall (fun c => contains applied (version (fst c)) = false
                      /\ PyStr.gt (version (fst c)) t = false) (calls o)
  /\ (failed o = 0 ->
      map fst (calls o) = planned /\ Forall (fun c => snd c = true) (calls o))
  /\ (ascending migrations -> ascending (map fst (calls o)))
  /\ (ascending migrations -> failed o = 0 ->
      forall m, In m migrations -> version m = t ->
                contains applied (version m) = false -> In (m, true) (calls o)).
Proof.
  intros Ht Hload Happlied o planned.
  assert (Ho : o = migrate_up_loop self applied (Some t) dry_run migrations 0 0 w1).
  { unfold o, migrate_up_run. now rewrite Hload, Happlied. }
  destruct (migrate_up_loop_plan self applied (Some t) dry_run migrations 0 0 w1)
    as ([rest Hrest] & Hall).
  rewrite <- Ho, (up_plan_with_target _ _ _ Ht) in Hrest, Hall.
  fold planned in Hrest, Hall.
  assert (Hprefix : Forall (fun m => is_pending applied m = true
                                     /\ within_target t m = true)
                           (map fst (calls o))).
  { rewrite Forall_forall. intros m Hm.
    assert (Hin : In m planned) by (rewrite Hrest; apply in_or_app; now left).
    split.
    - apply take_while_incl, filter_In in Hin. tauto.
    - pose proof (take_while_Forall (within_target t)
                    (filter (is_pending applied) migrations)) as F.
      rewrite Forall_forall in F. now apply F. }
  split; [now exists rest|]. split; [|split; [exact Hall|split]].
  - rewrite Forall_forall in *. intros c Hc.
    destruct (Hprefix (fst c) (in_map fst _ _ Hc)) as [Hp Hw].
    unfold is_pending in Hp. unfold within_target in Hw.
    rewrite gt_not_le, Hw. split; [|reflexivity].
    now destruct (contains applied (version (fst c))).
  - intros Hasc. apply ascending_prefix with rest. rewrite <- Hrest.
    now apply ascending_take_while, ascending_filter.
  - intros Hasc Hf m Hin Hv Hp. destruct (Hall Hf) as [E Hok].
    assert (Hm : In m (map fst (calls o))).
    { rewrite E. apply target_in_plan; auto. unfold is_pending. now rewrite Hp. }
    apply in_map_iff in Hm. destruct Hm as ([m' b] & Hfst & Hc).
    simpl in Hfst. subst m'. rewrite Forall_forall in Hok.
    specialize (Hok _ Hc). simpl in Hok. now subst b.
Qed.

(** At target V002 with V001 in the applied mapping: V002 is applied. *)
Lemma migrate_up_stops_after_target_witness :
  let ledger := [("V001", sample_migration "V001" "CREATE TABLE a(id INT);" "")] in
  let self := ServiceWithLedger ledger in
  let w := world_with three_files in
  let m := make_migration "V002" "create_posts" (sample_content "create_posts") in
  "V002" <> ""
  /\ ascending (fst (load_migrations w))
  /\ failed (migrate_up_run self (Some "V002") false w) = 0
  /\ In m (fst (load_migrations w))
  /\ In (m, true) (calls (migrate_up_run self (Some "V002") false w))
  /\ ascending (map fst (calls (migrate_up_run self (Some "V002") false w))).
Proof.
  intros ledger self w m.
  assert (Ht : "V002" <> "") by discriminate.
  assert (Hasc : ascending (fst (load_migrations w))) by apply load_migrations_ascending.
  assert (Hf : failed (migrate_up_run self (Some "V002") false w) = 0)
    by (vm_compute; reflexivity).
  assert (Hin : In m (fst (load_migrations w)))
    by (vm_compute; right; left; reflexivity).
  destruct (migrate_up_stops_after_target self "V002" false w w w
              (fst (load_migrations w)) ledger Ht)
    as (_ & _ & _ & Hsorted & Htarget).
  - unfold self, ServiceWithLedger. cbn [self_load_migrations].
    unfold load_migrations, w, world_with. reflexivity.
  - reflexivity.
  - repeat split; try assumption.
    + apply (Htarget Hasc Hf m Hin); reflexivity.
    + exact (Hsorted Hasc).
Defined.

(* ------------------------------------------------------------------------ *)
(** ** [migrate_down] *)

(** The loop of [migrate_down] follows whatever mapping
    [get_applied_migrations] hands it: for [steps >= 0] it calls
    [rollback_migration] on the first [steps] values in descending order of
    version, stopping early only at a call that returns [False]. *)
Lemma migrate_down_follows_the_mapping
    (self : Service) (steps : Z) (dry_run : bool) (w w1 : World) (applied : dict) :
  (0 <= steps)%Z ->
  self_get_applied_migrations self w = (applied, w1) ->
  let o := migrate_down_run self steps dry_run w in
  let planned := firstn (Z.to_nat steps) (sorted version true (values applied)) in
  descending (sorted version true (values applied))
  /\ Permutation (sorted version true (values applied)) (values applied)
  /\ (exists rest, planned = map fst (calls o) ++ rest)
  /\ (failed o = 0 ->
      map fst (calls o) = planned /\ Forall (fun c => snd c = true) (calls o)).
Proof.
  intros Hsteps Happlied o planned.
  assert (Ho : o = migrate_down_loop self dry_run planned 0 0 w1).
  { unfold o, migrate_down_run, slice_to. rewrite Happlied.
    destruct (steps <? 0)%Z eqn:E; [apply Z.ltb_lt in E; lia|reflexivity]. }
  split; [exact (sorted_in_order version true (values applied))|].
  split; [apply sorted_perm|].
  rewrite Ho. apply migrate_down_loop_plan.
Qed.

(** With two applied migrations in the mapping and [steps = 1] the loop
    rolls back the one with the higher version only. *)
Lemma migrate_down_one_step_of_two :
  let m1 := set_status (sample_migration "V001" "CREATE TABLE a(id INT);" "DROP TABLE a;") COMPLETED in
  let m2 := set_status (sample_migration "V002" "CREATE TABLE b(id INT);" "DROP TABLE b;") COMPLETED in
  let self := ServiceWithLedger [("V001", m1); ("V002", m2)] in
  let o := migrate_down_run self 1 false (world_with two_files) in
  calls o = [(m2, true)] /\ counts o = (1, 0).
Proof. vm_compute. split; reflexivity. Qed.

(** C9: the class as written does not do this.  After [migrate_up] has
    applied V001 and V002 (both calls return [True]),
    [migrate_down(steps=1)] calls [rollback_migration] on nothing, returns
    [(0, 0)] and leaves the world as it found it: the mapping it sorts is
    the empty one [get_applied_migrations] returns. *)
Theorem migrate_down_after_two_applied_rolls_back_nothing :
  let up := migrate_up_run DatabaseMigrationService None false (world_with two_files) in
  map (fun c => (version (fst c), snd c)) (calls up) = [("V001", true); ("V002", true)]
  /\ counts up = (2, 0)
  /\ migrate_down DatabaseMigrationService 1 false (world up) = ((0, 0), world up)
  /\ calls (migrate_down_run DatabaseMigrationService 1 false (world up)) = [].
Proof. vm_compute. repeat split. Qed.

(* ------------------------------------------------------------------------ *)
(** ** Checksums *)

Lemma hex_digit_is_hex (x : Z) : is_hex_digit (Sha256.hex_digit x).
Proof.
  unfold is_hex_digit, Sha256.hex_digit. apply nth_In.
  assert (0 <= x mod 16 < 16)%Z by (apply Z.mod_pos_bound; lia).
  change (List.length (list_ascii_of_string "0123456789abcdef")) with 16. lia.
Qed.

Lemma hex_word_length (x : Z) (rest : string) :
  String.length (Sha256.hex_word x rest) = 8 + String.length rest.
Proof. reflexivity. Qed.

Lemma hex_word_digits (x : Z) (rest : string) :
  Forall is_hex_digit (list_ascii_of_string rest) ->
  Forall is_hex_digit (list_ascii_of_string (Sha256.hex_word x rest)).
Proof.
  intros H. unfold Sha256.hex_word. cbn [list_ascii_of_string].
  repeat (constructor; [apply hex_digit_is_hex|]). exact H.
Qed.

Lemma hexdigest_shape (msg : list Z) :
  String.length (Sha256.hexdigest msg) = 64
  /\ Forall is_hex_digit (list_ascii_of_string (Sha256.hexdigest msg)).
Proof.
  unfold Sha256.hexdigest. split.
  - rewrite !hex_word_length. reflexivity.
  - repeat apply hex_word_digits. constructor.
Qed.

(** String lemmas for [split]. *)
Lemma append_assoc (a b c : string) : ((a ++ b) ++ c = a ++ (b ++ c))%string.
Proof. induction a as [|x a IH]; simpl; [reflexivity|]. now rewrite IH. Qed.

Lemma length_append (a b : string) :
  String.length (a ++ b) = String.length a + String.length b.
Proof. induction a as [|x a IH]; simpl; [reflexivity|]. now rewrite IH. Qed.

Lemma prefix_empty (s : string) : String.prefix "" s = true.
Proof. now destruct s. Qed.

Lemma prefix_append (sep d : string) : String.prefix sep (sep ++ d) = true.
Proof.
  induction sep as [|c sep IH]; simpl; [apply prefix_empty|].
  destruct (ascii_dec c c); [exact IH|congruence].
Qed.

(** Whether [sep] starts a text is decided by the first [length sep]
    characters. *)
Lemma prefix_ignores_tail (sep : string) :
  forall x d1 d2,
    String.length sep <= String.length x ->
    String.prefix sep (x ++ d1) = String.prefix sep (x ++ d2).
Proof.
  induction sep as [|c sep IH]; intros x d1 d2 Hlen.
  - now rewrite !prefix_empty.
  - destruct x as [|y x]; simpl in Hlen; [lia|]. simpl.
    destruct (ascii_dec c y); [|reflexivity]. apply IH. lia.
Qed.

Lemma partition_unfold (sep s : string) :
  PyStr.partition sep s
  = if String.prefix sep s then Some ("", PyStr.drop (String.length sep) s)
    else match s with
         | EmptyString => None
         | String c s' =>
             match PyStr.partition sep s' with
             | Some (before, after) => Some (String c before, after)
             | None => None
             end
         end.
Proof. now destruct s. Qed.

(** The text before the first [sep] of [up ++ sep ++ down] does not depend
    on [down]. *)
Lemma partition_before_ignores_down (sep : string) (up : string) :
  forall down1 down2,
  exists before after1 after2,
    PyStr.partition sep (up ++ sep ++ down1) = Some (before, after1)
    /\ PyStr.partition sep (up ++ sep ++ down2) = Some (before, after2).
Proof.
  induction up as [|c up IH]; intros down1 down2.
  - simpl. rewrite !partition_unfold, !prefix_append. eauto.
  - rewrite (partition_unfold sep (String c up ++ sep ++ down1)),
            (partition_unfold sep (String c up ++ sep ++ down2)).
    rewrite <- !append_assoc.
    rewrite (prefix_ignores_tail sep (String c up ++ sep) down1 down2)
      by (rewrite length_append; lia).
    destruct (String.prefix sep ((String c up ++ sep) ++ down2)); [eauto|].
    rewrite !append_assoc. simpl.
    destruct (IH down1 down2) as (b & a1 & a2 & H1 & H2).
    rewrite H1, H2. eauto.
Qed.

Lemma first_section_ignores_down (sep up down1 down2 : string) :
  sep <> "" ->
  nth 0 (PyStr.split (up ++ sep ++ down1) sep) ""
  = nth 0 (PyStr.split (up ++ sep ++ down2) sep) "".
Proof.
  intros Hsep. unfold PyStr.split.
  destruct (partition_before_ignores_down sep up down1 down2)
    as (b & a1 & a2 & H1 & H2).
  assert (Hpos : forall d, exists k, String.length (up ++ sep ++ d) = S k).
  { intros d. rewrite !length_append. destruct sep; [congruence|]. simpl.
    rewrite Nat.add_succ_r. eauto. }
  destruct (Hpos down1) as [k1 ->]. destruct (Hpos down2) as [k2 ->].
  simpl. now rewrite H1, H2.
Qed.

Lemma make_migration_checksum (v n content : string) :
  checksum (make_migration v n content)
  = calculate_checksum (up_sql (make_migration v n content)).
Proof. reflexivity. Qed.

(** What [load_migrations] returns was built by [make_migration]. *)
Lemma load_loop_items (files : list (string * string)) (filenames : list string) :
  forall m, In m (load_loop files filenames) ->
            exists v n content, m = make_migration v n content.
Proof.
  induction filenames as [|f rest IH]; intros m; simpl; [easy|].
  destruct (negb (PyStr.endswith f ".sql")); [apply IH|].
  destruct (PyStr.split (PyStr.replace f ".sql" "") "__") as [|v [|n [|? ?]]];
    try apply IH.
  intros [<-|Hin]; [eauto|now apply IH].
Qed.

Lemma load_migrations_items (w : World) :
  forall m, In m (fst (load_migrations w)) ->
            exists v n content, m = make_migration v n content.
Proof.
  intros m. unfold load_migrations. destruct (directory w) as [files|]; simpl.
  - rewrite sorted_In. apply load_loop_items.
  - easy.
Qed.

(** C6.  [calculate_checksum] is a function of the text alone, defined on
    every text; its value is the SHA-256 hex digest of the UTF-8 bytes, 64
    characters out of [0-9a-f] (with the standard digests of the empty text
    and of "abc").  Every migration [load_migrations] returns carries the
    checksum of its own [up_sql]; two files that differ only after the
    first [-- DOWN] marker get the same [up_sql] and the same checksum. *)
Theorem checksum_is_sha256_of_up_sql :
  (forall c1 c2, c1 = c2 -> calculate_checksum c1 = calculate_checksum c2)
  /\ (forall content,
         calculate_checksum content = Sha256.hexdigest (encode_utf8 content)
         /\ String.length (calculate_checksum content) = 64
         /\ Forall is_hex_digit (list_ascii_of_string (calculate_checksum content)))
  /\ calculate_checksum ""
     = "e3b0c44298fc1c149afbf4c8996fb92427ae41e4649b934ca495991b7852b855"
  /\ calculate_checksum "abc"
     = "ba7816bf8f01cfea414140de5dae2223b00361a396177a9cb410ff61f20015ad"
  /\ (forall w m, In m (fst (load_migrations w)) ->
                  checksum m = calculate_checksum (up_sql m))
  /\ (forall w m1 m2,
         In m1 (fst (load_migrations w)) -> In m2 (fst (load_migrations w)) ->
         up_sql m1 = up_sql m2 -> checksum m1 = checksum m2)
  /\ (forall v n up down1 down2,
         let m1 := make_migration v n (up ++ "-- DOWN" ++ down1) in
         let m2 := make_migration v n (up ++ "-- DOWN" ++ down2) in
         up_sql m1 = up_sql m2 /\ checksum m1 = checksum m2).
Proof.
  assert (Hloaded : forall w m, In m (fst (load_migrations w)) ->
                                checksum m = calculate_checksum (up_sql m)).
  { intros w m Hin. destruct (load_migrations_items w m Hin) as (v & n & c & ->).
    apply make_migration_checksum. }
  split; [now intros c1 c2 ->|]. split; [|split; [|split; [|split; [|split]]]].
  - intros content. split; [reflexivity|]. apply hexdigest_shape.
  - vm_compute. reflexivity.
  - vm_compute. reflexivity.
  - exact Hloaded.
  - intros w m1 m2 H1 H2 E. now rewrite (Hloaded w m1 H1), (Hloaded w m2 H2), E.
  - intros v n up down1 down2 m1 m2.
    assert (E : up_sql m1 = up_sql m2).
    { unfold m1, m2, make_migration. cbn [up_sql].
      now rewrite (first_section_ignores_down "-- DOWN" up down1 down2). }
    split; [exact E|]. unfold m1, m2 in *.
    rewrite !make_migration_checksum. now rewrite E.
Qed.

(** The migration loaded from the test suite's V001 file. *)
Lemma checksum_is_sha256_of_up_sql_witness :
  let m := make_migration "V001" "create_users" (sample_content "create_users") in
  In m (fst (load_migrations (world_with three_files)))
  /\ checksum m = calculate_checksum (up_sql m).
Proof.
  intros m.
  assert (Hin : In m (fst (load_migrations (world_with three_files)))).
  { vm_compute. left. reflexivity. }
  split; [exact Hin|].
  destruct checksum_is_sha256_of_up_sql as (_ & _ & _ & _ & Hloaded & _).
  exact (Hloaded (world_with three_files) m Hin).
Defined.

(* ------------------------------------------------------------------------ *)
(** ** [load_migrations]: the order of the result *)

Lemma ascending_versions (l : list Migration) :
  ascending l ->
  StronglySorted (fun a b => PyStr.le a b = true) (map version l).
Proof.
  unfold ascending. induction 1 as [|x l Hl IH Hx]; simpl; constructor; auto.
  rewrite Forall_forall in *. intros v Hv.
  apply in_map_iff in Hv. destruct Hv as (m & <- & Hm). now apply Hx.
Qed.

(** Sorting strings gives one result for all orders of the input. *)
Lemma sorted_strings_unique (l1 l2 : list string) :
  Permutation l1 l2 ->
  sorted (fun s => s) false l1 = sorted (fun s => s) false l2.
Proof.
  intros P.
  apply (in_order_unique (fun a b => PyStr.le a b = true) le_antisym).
  - exact (sorted_in_order (fun s => s) false l1).
  - exact (sorted_in_order (fun s => s) false l2).
  - rewrite !sorted_perm. exact P.
Qed.

(** In a directory, where every name is listed once, what a name reads does
    not depend on the order of the listing. *)
Lemma read_file_perm (files1 files2 : list (string * string)) :
  Permutation files1 files2 -> NoDup (listdir files1) ->
  forall filename, read_file files1 filename = read_file files2 filename.
Proof.
  unfold listdir.
  induction 1 as [|[f c] l1 l2 P IH|[f1 c1] [f2 c2] l|l1 l2 l3 P12 IH12 P23 IH23];
    intros Hnd filename; simpl.
  - reflexivity.
  - inversion Hnd; subst. destruct (String.eqb f filename); auto.
  - inversion Hnd as [|? ? Hnotin _]; subst. simpl in Hnotin.
    destruct (String.eqb_spec f1 filename), (String.eqb_spec f2 filename);
      try reflexivity.
    exfalso. apply Hnotin. left. congruence.
  - rewrite IH12 by exact Hnd. apply IH23.
    eapply Permutation_NoDup; [|exact Hnd]. now apply Permutation_map.
Qed.

Lemma load_loop_ext (files1 files2 : list (string * string)) (filenames : list string) :
  (forall filename, read_file files1 filename = read_file files2 filename) ->
  load_loop files1 filenames = load_loop files2 filenames.
Proof.
  intros E. induction filenames as [|f rest IH]; simpl; [reflexivity|].
  rewrite IH, E. reflexivity.
Qed.

(** C7.  In every world the list [load_migrations] returns is ascending by
    version under the lexicographic order of strings, so its versions are
    the sorted list of its versions taken in any order; the result does not
    depend on the order in which the directory lists its files; and the
    directory that lists V003, V001, V002 loads as V001, V002, V003. *)
Theorem load_migrations_sorted_by_version :
  (forall w, ascending (fst (load_migrations w)))
  /\ (forall w vs,
         Permutation vs (map version (fst (load_migrations w))) ->
         map version (fst (load_migrations w)) = sorted (fun v => v) false vs)
  /\ (forall files1 files2 out1 out2 now1 now2 db1 db2,
         NoDup (listdir files1) -> Permutation files1 files2 ->
         fst (load_migrations (mk_World out1 (Some files1) now1 db1))
         = fst (load_migrations (mk_World out2 (Some files2) now2 db2)))
  /\ (map (fun f => PyStr.split (PyStr.replace f ".sql" "") "__") (listdir three_files)
      = [["V003"; "create_comments"]; ["V001"; "create_users"]; ["V002"; "create_posts"]]
      /\ map version (fst (load_migrations (world_with three_files)))
         = ["V001"; "V002"; "V003"]).
Proof.
  split; [exact load_migrations_ascending|]. split; [|split].
  - intros w vs P.
    apply (in_order_unique (fun a b => PyStr.le a b = true) le_antisym).
    + apply ascending_versions, load_migrations_ascending.
    + exact (sorted_in_order (fun s => s) false vs).
    + rewrite sorted_perm. now symmetry.
  - intros files1 files2 out1 out2 now1 now2 db1 db2 Hnd P.
    unfold load_migrations. simpl. f_equal.
    rewrite (sorted_strings_unique (listdir files1) (listdir files2))
      by (unfold listdir; now apply Permutation_map).
    apply load_loop_ext, read_file_perm; assumption.
  - split; vm_compute; reflexivity.
Qed.

(** The listing V003, V001, V002 loads like the listing V001, V002, V003. *)
Lemma load_migrations_sorted_by_version_witness :
  NoDup (listdir three_files)
  /\ Permutation three_files
       [sample_file "V001" "create_users"; sample_file "V002" "create_posts";
        sample_file "V003" "create_comments"]
  /\ fst (load_migrations (world_with three_files))
     = fst (load_migrations
              (world_with [sample_file "V001" "create_users";
                           sample_file "V002" "create_posts";
                           sample_file "V003" "create_comments"])).
Proof.
  assert (Hnd : NoDup (listdir three_files)).
  { vm_compute. repeat constructor; simpl; intuition discriminate. }
  assert (P : Permutation three_files
                [sample_file "V001" "create_users"; sample_file "V002" "create_posts";
                 sample_file "V003" "create_comments"]).
  { unfold three_files.
    eapply perm_trans; [apply perm_swap|]. apply perm_skip, perm_swap. }
  split; [exact Hnd|]. split; [exact P|].
  destruct load_migrations_sorted_by_version as (_ & _ & Hindep & _).
  exact (Hindep _ _ [] [] 1700000000%Z 1700000000%Z [] [] Hnd P).
Defined.


(* ======================================================================== *)
(** * Further properties of the service *)

(* ------------------------------------------------------------------------ *)
(** ** [migrate_up] on the class as written *)

Lemma take_while_all {A : Type} (p : A -> bool) (l : list A) :
  (forall x, In x l -> p x = true) -> take_while p l = l.
Proof.
  induction l as [|x l IH]; intros H; simpl; [reflexivity|].
  rewrite (H x) by now left. f_equal. apply IH. intros y Hy. apply H. now right.
Qed.





Lemma all_true_count (log : list (Migration * bool)) :
  Forall (fun c => snd c = true) log ->
  List.length (filter snd log) = List.length log.
Proof.
  induction 1 as [|[m b] log Hb _ IH]; simpl in *; [reflexivity|].
  subst b. simpl. now rewrite IH.
Qed.


(** What [apply_migration] leaves alone, and how many lines it prints. *)
Lemma apply_migration_frame (m : Migration) (dry_run : bool) (w : World) :
  let w' := snd (apply_migration m dry_run w) in
  directory w' = directory w /\ clock w' = clock w /\ database w' = database w
  /\ exists lines, stdout w' = stdout w ++ lines
                   /\ List.length lines = if dry_run then 2 else 1.
Proof.
  destruct dry_run; simpl; repeat split.
  - eexists. rewrite <- app_assoc. split; reflexivity.
  - eexists. split; reflexivity.
Qed.


(** What [load_migrations] returns depends on the directory only. *)
Lemma load_migrations_by_directory (w1 w2 : World) :
  provisioned (directory w1) = provisioned (directory w2) ->
  fst (load_migrations w1) = fst (load_migrations w2).
Proof.
  unfold load_migrations.
  destruct (directory w1) as [f1|], (directory w2) as [f2|]; simpl; intros E;
    inversion E; subst; reflexivity.
Qed.







(* ------------------------------------------------------------------------ *)
(** ** [migrate_down] for any mapping *)

Lemma slice_to_nonneg {A : Type} (l : list A) (k : Z) :
  (0 <= k)%Z -> slice_to l k = firstn (Z.to_nat k) l.
Proof.
  intros H. unfold slice_to.
  destruct (k <? 0)%Z eqn:E; [apply Z.ltb_lt in E; lia|reflexivity].
Qed.

Lemma slice_to_negative {A : Type} (l : list A) (k : Z) :
  (k < 0)%Z -> slice_to l k = firstn (List.length l - Z.to_nat (- k)) l.
Proof.
  intros H. unfold slice_to.
  destruct (k <? 0)%Z eqn:E; [|apply Z.ltb_ge in E; lia].
  f_equal. lia.
Qed.

Lemma migrate_down_run_eq (self : Service) (steps : Z) (dry_run : bool)
    (w w1 : World) (applied : dict) :
  self_get_applied_migrations self w = (applied, w1) ->
  migrate_down_run self steps dry_run w
  = migrate_down_loop self dry_run
      (slice_to (sorted version true (values applied)) steps) 0 0 w1.
Proof. intros H. unfold migrate_down_run. now rewrite H. Qed.

Lemma descending_sorted (l : list Migration) : descending (sorted version true l).
Proof. exact (sorted_in_order version true l). Qed.

(** In a descending list the first [n] items have the highest versions. *)
Lemma descending_firstn (n : nat) (l : list Migration) :
  descending l ->
  forall m m', In m (firstn n l) -> In m' (skipn n l) ->
               PyStr.le (version m') (version m) = true.
Proof.
  unfold descending. intros H. revert n.
  induction H as [|x l Hl IH Hx]; intros [|n] m m'; simpl; try easy.
  intros [<-|Hm] Hm'.
  - rewrite Forall_forall in Hx. apply Hx.
    rewrite <- (firstn_skipn n l). apply in_or_app. now right.
  - eapply IH; eauto.
Qed.

(** X4.  For every service object, [migrate_down] counts in [failed] the
    calls of [rollback_migration] that returned [False]: there is at most
    one and it is the last call made; [successful] counts the others. *)
Theorem migrate_down_stops_at_first_failure
    (self : Service) (steps : Z) (dry_run : bool) (w : World) :
  let o := migrate_down_run self steps dry_run w in
  fst (migrate_down self steps dry_run w) = (successful o, failed o)
  /\ failed o <= 1
  /\ successful o = List.length (filter snd (calls o))
  /\ failed o = List.length (filter (fun c => negb (snd c)) (calls o))
  /\ successful o + failed o = List.length (calls o)
  /\ stops_at_failure (calls o).
Proof.
  unfold migrate_down. split; [reflexivity|].
  unfold migrate_down_run.
  destruct (self_get_applied_migrations self w) as [applied w1].
  destruct (migrate_down_loop_counts self dry_run
              (slice_to (sorted version true (values applied)) steps) 0 0 w1)
    as (Hs & Hf & Hle & Hstop).
  repeat (split; [assumption || lia|]).
  split; [|assumption].
  rewrite Hs, Hf. simpl. symmetry. apply count_split.
Qed.

(** X5.  For [steps >= 0] and any mapping [get_applied_migrations]
    returns, [migrate_down] passes to [rollback_migration] the first
    [steps] values of the mapping in descending order of version (all of
    them when there are fewer), stopping early only at a failed call.
    Those are values of the mapping, at most [steps] of them, and every
    value left out has a version not above theirs. *)
Theorem migrate_down_takes_highest_versions
    (self : Service) (steps : Z) (dry_run : bool) (w w1 : World) (applied : dict) :
  (0 <= steps)%Z ->
  self_get_applied_migrations self w = (applied, w1) ->
  let o := migrate_down_run self steps dry_run w in
  let ordered := sorted version true (values applied) in
  let planned := firstn (Z.to_nat steps) ordered in
  descending ordered
  /\ Permutation ordered (values applied)
  /\ List.length planned = Nat.min (Z.to_nat steps) (List.length applied)
  /\ (exists rest, planned = map fst (calls o) ++ rest)
  /\ (failed o = 0 -> map fst (calls o) = planned)
  /\ (forall m m', In m planned -> In m' (skipn (Z.to_nat steps) ordered) ->
                   PyStr.le (version m') (version m) = true).
Proof.
  intros Hsteps Happlied o ordered planned.
  assert (Ho : o = migrate_down_loop self dry_run planned 0 0 w1).
  { unfold o. rewrite (migrate_down_run_eq _ _ _ _ _ _ Happlied).
    now rewrite slice_to_nonneg. }
  destruct (migrate_down_loop_plan self dry_run planned 0 0 w1) as (Hpre & Hall).
  rewrite <- Ho in Hpre, Hall.
  split; [apply descending_sorted|]. split; [apply sorted_perm|].
  split; [|split; [exact Hpre|split]].
  - unfold planned, ordered.
    rewrite length_firstn, sorted_length. unfold values. now rewrite length_map.
  - intros Hf. now apply Hall.
  - apply descending_firstn, descending_sorted.
Qed.

(** One step over a mapping of V001 and V002: the call is for V002. *)
Lemma migrate_down_takes_highest_versions_witness :
  let m1 := set_status (sample_migration "V001" "CREATE TABLE a(id INT);" "DROP TABLE a;") COMPLETED in
  let m2 := set_status (sample_migration "V002" "CREATE TABLE b(id INT);" "DROP TABLE b;") COMPLETED in
  let self := ServiceWithLedger [("V001", m1); ("V002", m2)] in
  (0 <= 1)%Z
  /\ map fst (calls (migrate_down_run self 1 false (world_with two_files))) = [m2].
Proof.
  intros m1 m2 self.
  assert (H01 : (0 <= 1)%Z) by lia.
  split; [exact H01|].
  destruct (migrate_down_takes_highest_versions self 1 false (world_with two_files)
              (world_with two_files) [("V001", m1); ("V002", m2)] H01 eq_refl)
    as (_ & _ & _ & _ & Hall & _).
  rewrite Hall; [|vm_compute; reflexivity].
  vm_compute. reflexivity.
Defined.

(** X6.  A negative [steps] is not refused: [migrate_down] then passes to
    [rollback_migration] all values of the mapping in descending order of
    version except the last [-steps], that is, everything but the [-steps]
    lowest versions (nothing when the mapping has no more than [-steps]
    entries). *)
Theorem migrate_down_negative_steps
    (self : Service) (steps : Z) (dry_run : bool) (w w1 : World) (applied : dict) :
  (steps < 0)%Z ->
  self_get_applied_migrations self w = (applied, w1) ->
  let o := migrate_down_run self steps dry_run w in
  let ordered := sorted version true (values applied) in
  let planned := firstn (List.length applied - Z.to_nat (- steps)) ordered in
  (exists rest, planned = map fst (calls o) ++ rest)
  /\ (failed o = 0 ->
      map fst (calls o) = planned
      /\ successful o = List.length applied - Z.to_nat (- steps)).
Proof.
  intros Hsteps Happlied o ordered planned.
  assert (Hlen : List.length ordered = List.length applied).
  { unfold ordered. rewrite sorted_length. unfold values. now rewrite length_map. }
  assert (Ho : o = migrate_down_loop self dry_run planned 0 0 w1).
  { unfold o. rewrite (migrate_down_run_eq _ _ _ _ _ _ Happlied).
    rewrite slice_to_negative by exact Hsteps. fold ordered. now rewrite Hlen. }
  destruct (migrate_down_loop_plan self dry_run planned 0 0 w1) as (Hpre & Hall).
  destruct (migrate_down_loop_counts self dry_run planned 0 0 w1) as (Hs & _).
  rewrite <- Ho in Hpre, Hall, Hs.
  split; [exact Hpre|]. intros Hf. destruct (Hall Hf) as [Hcalls Hok].
  split; [exact Hcalls|].
  rewrite Hs, (all_true_count _ Hok). simpl.
  rewrite <- (length_map fst), Hcalls. unfold planned.
  rewrite length_firstn, Hlen. lia.
Qed.

(** With [steps = -1] over a mapping of V001 and V002: V002 is rolled back. *)
Lemma migrate_down_negative_steps_witness :
  let m1 := set_status (sample_migration "V001" "CREATE TABLE a(id INT);" "DROP TABLE a;") COMPLETED in
  let m2 := set_status (sample_migration "V002" "CREATE TABLE b(id INT);" "DROP TABLE b;") COMPLETED in
  let self := ServiceWithLedger [("V001", m1); ("V002", m2)] in
  (-1 < 0)%Z
  /\ map fst (calls (migrate_down_run self (-1) false (world_with two_files))) = [m2]
  /\ successful (migrate_down_run self (-1) false (world_with two_files)) = 1.
Proof.
  intros m1 m2 self.
  assert (Hneg : (-1 < 0)%Z) by lia.
  split; [exact Hneg|].
  destruct (migrate_down_negative_steps self (-1) false (world_with two_files)
              (world_with two_files) [("V001", m1); ("V002", m2)] Hneg eq_refl)
    as (_ & Hall).
  destruct Hall as [Hcalls Hs]; [vm_compute; reflexivity|].
  rewrite Hcalls, Hs. vm_compute. split; reflexivity.
Defined.

(* ------------------------------------------------------------------------ *)
(** ** [get_migration_status] for any loaded list and any mapping *)

Lemma lt_le (a b : string) : PyStr.lt a b = true -> PyStr.le a b = true.
Proof.
  unfold PyStr.lt, PyStr.le, String.ltb, String.leb.
  now destruct (String.compare a b).
Qed.

Lemma not_lt_le (a b : string) : PyStr.lt a b = false -> PyStr.le b a = true.
Proof.
  unfold PyStr.lt, PyStr.le, String.ltb, String.leb.
  rewrite (String.compare_antisym a b).
  now destruct (String.compare b a).
Qed.

(** [max] of a non-empty list of strings is one of them and bounds them. *)
Lemma max_str_bounds (l : list string) :
  l <> [] ->
  exists k, max_str l = Some k /\ In k l
            /\ forall x, In x l -> PyStr.le x k = true.
Proof.
  induction l as [|a l IH]; [congruence|]. intros _. simpl.
  destruct l as [|b l].
  - exists a. repeat split; [now left|]. intros x [<-|[]]. apply le_refl.
  - destruct IH as (k & Hk & Hin & Hmax); [discriminate|].
    rewrite Hk. destruct (PyStr.lt a k) eqn:E.
    + exists k. repeat split; [now right|].
      intros x [<-|Hx]; [now apply lt_le|now apply Hmax].
    + exists a. repeat split; [now left|].
      intros x [<-|Hx]; [apply le_refl|].
      apply le_trans with k; [now apply Hmax|now apply not_lt_le].
Qed.

Lemma last_item_In {A : Type} (l : list A) (x : A) : last_item l = Some x -> In x l.
Proof.
  induction l as [|a [|b l] IH]; simpl in *; try discriminate.
  - intros H. inversion H. now left.
  - intros H. right. now apply IH.
Qed.

Lemma last_item_none {A : Type} (l : list A) : last_item l = None <-> l = [].
Proof.
  split; [|now intros ->].
  induction l as [|a [|b l] IH]; simpl in *; try easy.
  intros H. now apply IH in H.
Qed.

(** The last item of an ascending list has the greatest version. *)
Lemma last_item_greatest (l : list Migration) (x : Migration) :
  ascending l -> last_item l = Some x ->
  forall m, In m l -> PyStr.le (version m) (version x) = true.
Proof.
  unfold ascending. induction 1 as [|a l Hl IH Ha]; [discriminate|].
  destruct l as [|b l].
  - simpl. intros H m [<-|[]]. inversion H. apply le_refl.
  - intros H m [<-|Hm].
    + rewrite Forall_forall in Ha. apply Ha. now apply last_item_In.
    + now apply IH.
Qed.

(** X7.  [get_migration_status], for any loaded list and any mapping:
    [current_version] is [None] exactly when the mapping is empty, and is
    otherwise a key of the mapping that no key exceeds; [latest_version] is
    [None] exactly when nothing is loaded, and is otherwise the version of
    the last loaded migration, which no loaded version exceeds when the
    list is ascending (as the list [load_migrations] returns is). *)
Theorem get_migration_status_versions
    (self : Service) (w w0 w1 : World) (all_migrations : list Migration)
    (applied : dict) :
  self_load_migrations self w = (all_migrations, w0) ->
  self_get_applied_migrations self w0 = (applied, w1) ->
  let report := fst (get_migration_status self w) in
  snd (get_migration_status self w) = w1
  /\ (current_version report = None <-> applied = [])
  /\ (forall c, current_version report = Some c ->
                In c (keys applied)
                /\ forall k, In k (keys applied) -> PyStr.le k c = true)
  /\ (latest_version report = None <-> all_migrations = [])
  /\ (forall v, latest_version report = Some v ->
                (exists m, In m all_migrations /\ version m = v)
                /\ (ascending all_migrations ->
                    forall m, In m all_migrations -> PyStr.le (version m) v = true)).
Proof.
  intros Hload Happlied report.
  unfold report, get_migration_status. rewrite Hload, Happlied. simpl.
  split; [reflexivity|]. split; [|split; [|split]].
  - destruct applied as [|e applied]; [tauto|].
    destruct (max_str_bounds (keys (e :: applied))) as (k & Hk & _);
      [discriminate|].
    rewrite Hk. split; discriminate.
  - intros c Hc. destruct applied as [|e applied]; [discriminate|].
    destruct (max_str_bounds (keys (e :: applied))) as (k & Hk & Hin & Hmax);
      [discriminate|].
    rewrite Hk in Hc. inversion Hc; subst. now split.
  - rewrite <- last_item_none.
    destruct (last_item all_migrations); simpl; split; congruence.
  - intros v Hv. destruct (last_item all_migrations) as [x|] eqn:Hlast;
      [|discriminate].
    simpl in Hv. inversion Hv; subst. split.
    + exists x. split; [now apply last_item_In|reflexivity].
    + intros Hasc. now apply last_item_greatest.
Qed.

(** The status of the three sample files with V001 in the mapping. *)
Lemma get_migration_status_versions_witness :
  let self := ServiceWithLedger [("V001", sample_migration "V001" "CREATE TABLE a(id INT);" "")] in
  let report := fst (get_migration_status self (world_with three_files)) in
  current_version report = Some "V001"
  /\ latest_version report = Some "V003"
  /\ forall m, In m (fst (load_migrations (world_with three_files))) ->
               PyStr.le (version m) "V003" = true.
Proof.
  intros self report.
  assert (Hc : current_version report = Some "V001") by (vm_compute; reflexivity).
  assert (Hl : latest_version report = Some "V003") by (vm_compute; reflexivity).
  split; [exact Hc|]. split; [exact Hl|].
  destruct (get_migration_status_versions self (world_with three_files)
              (world_with three_files) (world_with three_files)
              (fst (load_migrations (world_with three_files)))
              [("V001", sample_migration "V001" "CREATE TABLE a(id INT);" "")]
              eq_refl eq_refl)
    as (_ & _ & _ & _ & Hlatest).
  destruct (Hlatest "V003" Hl) as [_ Hmax].
  apply Hmax, load_migrations_ascending.
Defined.

(** X8.  [get_migration_status], for any loaded list and any mapping:
    [pending_migrations] lists, in loaded order, the versions of the loaded
    migrations whose version is not a key of the mapping; [pending_count]
    is its length; and [total_migrations] is [pending_count] plus the number
    of loaded migrations whose version is a key.  The mapping's entries
    that match no loaded migration count in [applied_count] all the same. *)
Theorem get_migration_status_accounting
    (self : Service) (w w0 w1 : World) (all_migrations : list Migration)
    (applied : dict) :
  self_load_migrations self w = (all_migrations, w0) ->
  self_get_applied_migrations self w0 = (applied, w1) ->
  let report := fst (get_migration_status self w) in
  total_migrations report = List.length all_migrations
  /\ applied_count report = List.length applied
  /\ pending_migrations report
     = map version (filter (is_pending applied) all_migrations)
  /\ pending_count report = List.length (pending_migrations report)
  /\ total_migrations report
     = pending_count report
       + List.length (filter (fun m => contains applied (version m)) all_migrations)
  /\ (forall v, In v (pending_migrations report) -> contains applied v = false)
  /\ (ascending all_migrations ->
      StronglySorted (fun a b => PyStr.le a b = true) (pending_migrations report)).
Proof.
  intros Hload Happlied report.
  unfold report, get_migration_status. rewrite Hload, Happlied. simpl.
  fold (is_pending applied).
  repeat split.
  - now rewrite length_map.
  - rewrite <- (filter_length (fun m => contains applied (version m)) all_migrations)
      at 1.
    rewrite Nat.add_comm. reflexivity.
  - intros v Hv. apply in_map_iff in Hv. destruct Hv as (m & <- & Hm).
    apply filter_In in Hm. destruct Hm as [_ Hp]. unfold is_pending in Hp.
    now destruct (contains applied (version m)).
  - intros Hasc. now apply ascending_versions, ascending_filter.
Qed.

(** Three sample files with V001 applied: two pending out of three. *)
Lemma get_migration_status_accounting_witness :
  let self := ServiceWithLedger [("V001", sample_migration "V001" "CREATE TABLE a(id INT);" "")] in
  let report := fst (get_migration_status self (world_with three_files)) in
  total_migrations report = 3
  /\ pending_migrations report = ["V002"; "V003"]
  /\ forall v, In v (pending_migrations report) ->
               contains [("V001", sample_migration "V001" "CREATE TABLE a(id INT);" "")] v
               = false.
Proof.
  intros self report.
  split; [vm_compute; reflexivity|]. split; [vm_compute; reflexivity|].
  destruct (get_migration_status_accounting self (world_with three_files)
              (world_with three_files) (world_with three_files)
              (fst (load_migrations (world_with three_files)))
              [("V001", sample_migration "V001" "CREATE TABLE a(id INT);" "")]
              eq_refl eq_refl)
    as (_ & _ & _ & _ & _ & Hpending & _).
  exact Hpending.
Defined.

(* ------------------------------------------------------------------------ *)
(** ** [rollback_migration] after [apply_migration] *)






(* ------------------------------------------------------------------------ *)
(** ** [load_migrations]: what it reads and what it leaves *)

Lemma after_applying_frame (history : list (Migration * bool)) :
  forall w,
    directory (after_applying history w) = directory w
    /\ clock (after_applying history w) = clock w
    /\ database (after_applying history w) = database w.
Proof.
  unfold after_applying.
  induction history as [|[m dry_run] history IH]; intros w; simpl; [easy|].
  destruct (IH (snd (apply_migration m dry_run w))) as (Hd & Hc & Hb).
  destruct (apply_migration_frame m dry_run w) as (Hd' & Hc' & Hb' & _).
  simpl in Hd', Hc', Hb'. repeat split; congruence.
Qed.

(** X10.  [load_migrations] changes nothing but a missing directory, which
    it creates empty: console, clock and database stay as they are; a
    second call returns the same list and changes nothing more; and a
    missing directory loads as no migration at all. *)
Theorem load_migrations_reads_only (w : World) :
  let '(loaded, w1) := load_migrations w in
  stdout w1 = stdout w /\ clock w1 = clock w /\ database w1 = database w
  /\ directory w1 = provisioned (directory w)
  /\ (directory w <> None -> w1 = w)
  /\ (directory w = None -> loaded = [])
  /\ load_migrations w1 = (loaded, w1).
Proof.
  unfold load_migrations. destruct w as [out [files|] now db]; simpl.
  - repeat split; congruence.
  - repeat split; congruence.
Qed.

(** A world without the directory: the first load creates it, the second
    finds it empty. *)
Lemma load_migrations_reads_only_witness :
  let w := mk_World [] None 1700000000%Z [] in
  directory w = None
  /\ load_migrations w = ([], world_with [])
  /\ load_migrations (world_with []) = ([], world_with []).
Proof.
  intros w.
  pose proof (load_migrations_reads_only w) as H.
  destruct (load_migrations w) as [loaded w1] eqn:E.
  destruct H as (Hout & Hclock & Hdb & Hdir & _ & Hnone & Hagain).
  split; [reflexivity|].
  assert (Hw1 : w1 = world_with []).
  { destruct w1 as [out dir now db]. simpl in *. unfold world_with. congruence. }
  rewrite (Hnone eq_refl), Hw1 in *. split; [reflexivity|exact Hagain].
Defined.

(** X11.  Whatever [apply_migration] calls came before, [load_migrations]
    returns the list it would have returned without them, and every
    migration in it is [PENDING] with no [applied_at] and the description
    built from its version and name: the status and time that
    [apply_migration] sets on an object are not seen by a later load. *)
Theorem load_migrations_forgets_applies
    (history : list (Migration * bool)) (w : World) :
  fst (load_migrations (after_applying history w)) = fst (load_migrations w)
  /\ forall m, In m (fst (load_migrations (after_applying history w))) ->
               status m = PENDING /\ applied_at m = None
               /\ description m
                  = ("Migration " ++ version m ++ ": " ++ name m)%string.
Proof.
  assert (E : fst (load_migrations (after_applying history w))
              = fst (load_migrations w)).
  { apply load_migrations_by_directory.
    now destruct (after_applying_frame history w) as (-> & _). }
  split; [exact E|]. rewrite E. intros m Hm.
  destruct (load_migrations_items w m Hm) as (v & n & c & ->).
  now repeat split.
Qed.

(** Loading the sample files after V001 was applied. *)
Lemma load_migrations_forgets_applies_witness :
  let m := make_migration "V001" "create_users" (sample_content "create_users") in
  let w := after_applying [(m, false)] (world_with three_files) in
  In m (fst (load_migrations w)) /\ status m = PENDING /\ applied_at m = None.
Proof.
  intros m w.
  destruct (load_migrations_forgets_applies [(m, false)] (world_with three_files))
    as [E Hfresh].
  fold w in E, Hfresh.
  assert (Hin : In m (fst (load_migrations w))).
  { rewrite E. vm_compute. left. reflexivity. }
  split; [exact Hin|]. destruct (Hfresh m Hin) as (Hs & Ha & _). now split.
Defined.

Lemma Permutation_filter {A : Type} (f : A -> bool) (l l' : list A) :
  Permutation l l' -> Permutation (filter f l) (filter f l').
Proof.
  induction 1 as [|x l l' P IH|x y l|l1 l2 l3 P12 IH12 P23 IH23]; simpl.
  - constructor.
  - destruct (f x); [now constructor|exact IH].
  - destruct (f x), (f y); try reflexivity. apply perm_swap.
  - now transitivity (filter f l2).
Qed.

Lemma load_loop_parts (files : list (string * string)) (filenames : list string) :
  map (fun m => [version m; name m]) (load_loop files filenames)
  = map name_parts (filter well_named filenames).
Proof.
  induction filenames as [|f rest IH]; simpl; [reflexivity|].
  unfold well_named at 1. fold (name_parts f).
  destruct (PyStr.endswith f ".sql"); simpl; [|exact IH].
  destruct (name_parts f) as [|v [|n [|x l]]] eqn:Hparts; simpl; try exact IH.
  now rewrite Hparts, IH.
Qed.

Lemma load_loop_sources (files : list (string * string)) (filenames : list string) :
  forall m, In m (load_loop files filenames) ->
            exists f, In f filenames /\ well_named f = true
                      /\ name_parts f = [version m; name m]
                      /\ m = make_migration (version m) (name m) (read_file files f).
Proof.
  induction filenames as [|f rest IH]; intros m; simpl; [easy|].
  assert (Hrest : In m (load_loop files rest) ->
                  exists f0, (f = f0 \/ In f0 rest) /\ well_named f0 = true
                             /\ name_parts f0 = [version m; name m]
                             /\ m = make_migration (version m) (name m)
                                                   (read_file files f0)).
  { intros H. destruct (IH m H) as (f0 & H0 & H1). exists f0. tauto. }
  destruct (PyStr.endswith f ".sql") eqn:Hsql; simpl; [|exact Hrest].
  fold (name_parts f).
  destruct (name_parts f) as [|v [|n [|x l]]] eqn:Hparts; try exact Hrest.
  intros [<-|Hin]; [|now apply Hrest].
  exists f. split; [now left|]. unfold well_named. rewrite Hsql, Hparts.
  now repeat split.
Qed.

Lemma load_loop_includes (files : list (string * string)) (filenames : list string)
    (f v n : string) :
  In f filenames -> PyStr.endswith f ".sql" = true -> name_parts f = [v; n] ->
  In (make_migration v n (read_file files f)) (load_loop files filenames).
Proof.
  intros Hin Hsql Hparts.
  induction filenames as [|g rest IH]; simpl in *; [easy|].
  destruct Hin as [->|Hin].
  - rewrite Hsql. simpl. fold (name_parts f). rewrite Hparts. now left.
  - destruct (negb (PyStr.endswith g ".sql")); [now apply IH|].
    destruct (PyStr.split (PyStr.replace g ".sql" "") "__") as [|? [|? [|? ?]]];
      try (now apply IH).
    right. now apply IH.
Qed.

(** X12.  [load_migrations] makes one migration of every listed file whose
    name ends in [.sql] and splits in exactly two parts around [__], and
    none of any other file: the (version, name) pairs of the result are
    those of the well-named files, each as often as listed, and every
    loaded migration is the one built from such a file and its content. *)
Theorem load_migrations_one_per_file (w : World) (files : list (string * string)) :
  directory w = Some files ->
  let loaded := fst (load_migrations w) in
  Permutation (map (fun m => [version m; name m]) loaded)
              (map name_parts (filter well_named (listdir files)))
  /\ List.length loaded = List.length (filter well_named (listdir files))
  /\ List.length loaded <= List.length files
  /\ forall m, In m loaded ->
               exists f, In f (listdir files) /\ well_named f = true
                         /\ name_parts f = [version m; name m]
                         /\ m = make_migration (version m) (name m)
                                               (read_file files f).
Proof.
  intros Hdir loaded. unfold loaded, load_migrations. rewrite Hdir. simpl.
  assert (P : Permutation
                (map (fun m => [version m; name m])
                     (sorted version false
                        (load_loop files (sorted (fun f => f) false (listdir files)))))
                (map name_parts (filter well_named (listdir files)))).
  { rewrite (Permutation_map _ (sorted_perm version false _)).
    rewrite load_loop_parts.
    apply Permutation_map, Permutation_filter, sorted_perm. }
  split; [exact P|].
  assert (Hlen : List.length
                   (sorted version false
                      (load_loop files (sorted (fun f => f) false (listdir files))))
                 = List.length (filter well_named (listdir files))).
  { apply Permutation_length in P. now rewrite !length_map in P. }
  split; [exact Hlen|]. split.
  - rewrite Hlen. unfold listdir.
    rewrite <- (length_map fst files). apply filter_length_le.
  - intros m Hm. rewrite sorted_In in Hm.
    destruct (load_loop_sources files _ m Hm) as (f & Hf & Hrest).
    exists f. split; [|exact Hrest]. now rewrite sorted_In in Hf.
Qed.

(** A directory with the three sample files, a README and a file with no
    [__] in its name: three migrations. *)
Lemma load_migrations_one_per_file_witness :
  let files := three_files ++ [("README.md", "notes"); ("schema.sql", "CREATE TABLE t(id INT);")] in
  directory (world_with files) = Some files
  /\ List.length (fst (load_migrations (world_with files))) = 3.
Proof.
  intros files.
  split; [reflexivity|].
  destruct (load_migrations_one_per_file (world_with files) files eq_refl)
    as (_ & Hlen & _).
  rewrite Hlen. vm_compute. reflexivity.
Defined.

(* ------------------------------------------------------------------------ *)
(** ** Cutting texts at a marker *)

Lemma append_empty_r (s : string) : (s ++ "")%string = s.
Proof. induction s as [|c s IH]; simpl; [reflexivity|]. now rewrite IH. Qed.

Lemma drop_append (a b : string) : PyStr.drop (String.length a) (a ++ b) = b.
Proof. induction a as [|c a IH]; simpl; [now destruct b|exact IH]. Qed.

Lemma prefix_other (c d : ascii) (sep s : string) :
  c <> d -> String.prefix (String c sep) (String d s) = false.
Proof. intros H. simpl. destruct (ascii_dec c d); [congruence|reflexivity]. Qed.

Lemma eqb_false_neq (c d : ascii) : Ascii.eqb c d = false -> c <> d.
Proof. intros H E. subst. now rewrite Ascii.eqb_refl in H. Qed.

(** A separator cuts at its first character when that character does not
    occur before. *)
Lemma partition_at_first_char (c : ascii) (sep x rest : string) :
  has_char c x = false ->
  PyStr.partition (String c sep) (x ++ String c sep ++ rest) = Some (x, rest).
Proof.
  induction x as [|d x IH]; intros H.
  - change ("" ++ String c sep ++ rest)%string with (String c sep ++ rest)%string.
    rewrite partition_unfold, (prefix_append (String c sep) rest).
    now rewrite (drop_append (String c sep) rest).
  - simpl in H. apply orb_false_elim in H. destruct H as [Hcd Hx].
    change (String d x ++ String c sep ++ rest)%string
      with (String d (x ++ String c sep ++ rest)).
    rewrite partition_unfold.
    rewrite (prefix_other c d) by now apply eqb_false_neq.
    now rewrite (IH Hx).
Qed.

Lemma partition_none_char (c : ascii) (sep s : string) :
  has_char c s = false -> PyStr.partition (String c sep) s = None.
Proof.
  induction s as [|d s IH]; intros H; [reflexivity|].
  simpl in H. apply orb_false_elim in H. destruct H as [Hcd Hs].
  rewrite partition_unfold.
  rewrite (prefix_other c d) by now apply eqb_false_neq.
  now rewrite (IH Hs).
Qed.

(** A separator that starts with [c] twice does not start where [c]
    stands alone. *)
Lemma prefix_pair_false (c : ascii) (sep x tail : string) :
  x <> "" -> has_pair c (x ++ String c "") = false ->
  String.prefix (String c (String c sep)) (x ++ tail) = false.
Proof.
  destruct x as [|e x]; [congruence|]. intros _ H.
  cbn [append] in *. destruct (ascii_dec c e) as [<-|Hce];
    [|now apply prefix_other].
  destruct x as [|f x].
  - simpl in H. now rewrite Ascii.eqb_refl in H.
  - cbn [append] in *. cbn [has_pair] in H.
    rewrite Ascii.eqb_refl in H. apply orb_false_elim in H. destruct H as [Hf _].
    simpl in Hf. simpl. destruct (ascii_dec c c); [|congruence].
    destruct (ascii_dec c f); [subst; now rewrite Ascii.eqb_refl in Hf|reflexivity].
Qed.

Lemma has_pair_tail (c e : ascii) (s : string) :
  has_pair c (String e s) = false -> has_pair c s = false.
Proof.
  destruct s as [|f s]; [reflexivity|]. cbn [has_pair].
  intros H. apply orb_false_elim in H. tauto.
Qed.

(** Such a separator is not found in a text where [c] never stands twice
    in a row and that does not end in [c]: the cut comes later. *)
Lemma partition_skips (c : ascii) (sep x tail : string) :
  has_pair c (x ++ String c "") = false ->
  PyStr.partition (String c (String c sep)) (x ++ tail)
  = match PyStr.partition (String c (String c sep)) tail with
    | Some (before, after) => Some ((x ++ before)%string, after)
    | None => None
    end.
Proof.
  induction x as [|e x IH]; intros H.
  - cbn [append]. now destruct (PyStr.partition _ tail) as [[? ?]|].
  - rewrite (partition_unfold _ (String e x ++ tail)).
    rewrite (prefix_pair_false c sep (String e x) tail) by (congruence || exact H).
    cbn [append]. rewrite IH by (apply has_pair_tail with e; exact H).
    now destruct (PyStr.partition _ tail) as [[? ?]|].
Qed.

Lemma partition_none_pair (c : ascii) (sep s : string) :
  has_pair c s = false -> PyStr.partition (String c (String c sep)) s = None.
Proof.
  induction s as [|e s IH]; intros H; [reflexivity|].
  rewrite partition_unfold.
  assert (Hp : String.prefix (String c (String c sep)) (String e s) = false).
  { destruct (ascii_dec c e) as [<-|Hce]; [|now apply prefix_other].
    destruct s as [|f s]; [simpl; now destruct (ascii_dec c c)|].
    cbn [has_pair] in H. rewrite Ascii.eqb_refl in H.
    apply orb_false_elim in H. destruct H as [Hf _]. simpl in Hf. simpl.
    destruct (ascii_dec c c); [|congruence].
    destruct (ascii_dec c f); [subst; now rewrite Ascii.eqb_refl in Hf|reflexivity]. }
  rewrite Hp, IH; [reflexivity|]. now apply has_pair_tail with e.
Qed.

(** [split] in terms of the first cut. *)
Lemma split_cut (sep s before after : string) :
  sep <> "" ->
  PyStr.partition sep s = Some (before, after) ->
  PyStr.split s sep = before :: PyStr.split after sep.
Proof.
  intros Hsep Hp. unfold PyStr.split.
  pose proof (partition_after_shorter sep s Hsep _ _ Hp) as Hlt.
  destruct (String.length s) as [|k] eqn:Hlen; [lia|].
  simpl. rewrite Hp. f_equal. apply split_rounds_enough; [exact Hsep|lia|lia].
Qed.

Lemma split_uncut (sep s : string) :
  PyStr.partition sep s = None -> PyStr.split s sep = [s].
Proof.
  intros Hp. unfold PyStr.split. destruct (String.length s); simpl; [reflexivity|].
  now rewrite Hp.
Qed.

Lemma has_char_append (c : ascii) (a b : string) :
  has_char c (a ++ b) = has_char c a || has_char c b.
Proof.
  induction a as [|d a IH]; simpl; [reflexivity|]. now rewrite IH, orb_assoc.
Qed.

Lemma rev_onto_append (a : string) :
  forall acc, PyStr.rev_onto a acc = (PyStr.rev_onto a "" ++ acc)%string.
Proof.
  induction a as [|c a IH]; intros acc; simpl; [reflexivity|].
  rewrite IH, (IH (String c "")). now rewrite append_assoc.
Qed.

Lemma rev_append (a b : string) :
  PyStr.rev (a ++ b) = (PyStr.rev b ++ PyStr.rev a)%string.
Proof.
  unfold PyStr.rev. induction a as [|c a IH]; simpl.
  - now rewrite append_empty_r.
  - rewrite rev_onto_append, IH, (rev_onto_append a (String c "")).
    now rewrite append_assoc.
Qed.

Lemma endswith_append (a p : string) : PyStr.endswith (a ++ p) p = true.
Proof. unfold PyStr.endswith. rewrite rev_append. apply prefix_append. Qed.

Lemma read_file_listed (files : list (string * string)) (f content : string) :
  NoDup (listdir files) -> In (f, content) files -> read_file files f = content.
Proof.
  unfold listdir. induction files as [|[g c] files IH]; simpl; [easy|].
  intros Hnd [E|Hin].
  - inversion E; subst. now rewrite String.eqb_refl.
  - inversion Hnd as [|? ? Hnotin Hnd']; subst.
    destruct (String.eqb_spec g f) as [->|_]; [|now apply IH].
    exfalso. apply Hnotin. apply in_map_iff. now exists (f, content).
Qed.

(* ------------------------------------------------------------------------ *)
(** ** Stripping the line breaks around a section *)

Lemma space2_newline (c : ascii) : PyStr.space2 c "010" = false.
Proof. unfold PyStr.space2. cbn. apply andb_false_r. Qed.

Lemma space3_newline (c1 c2 : ascii) : PyStr.space3 c1 c2 "010" = false.
Proof. unfold PyStr.space3. cbn. now rewrite !andb_false_r. Qed.

Lemma lstrip_append_newline_bounded (n : nat) :
  forall x, String.length x <= n ->
    PyStr.lstrip (x ++ newline)
    = match PyStr.lstrip x with
      | EmptyString => EmptyString
      | y => (y ++ newline)%string
      end.
Proof.
  induction n as [|n IH]; intros x Hlen.
  - destruct x; [reflexivity|simpl in Hlen; lia].
  - destruct x as [|c1 [|c2 [|c3 s3]]]; cbn [append PyStr.lstrip String.length] in *.
    + reflexivity.
    + unfold newline. destruct (PyStr.space1 c1); [reflexivity|].
      now rewrite space2_newline.
    + destruct (PyStr.space1 c1).
      { apply (IH (String c2 "")). simpl. lia. }
      destruct (PyStr.space2 c1 c2); [reflexivity|].
      unfold newline. now rewrite space3_newline.
    + destruct (PyStr.space1 c1).
      { apply (IH (String c2 (String c3 s3))). simpl. lia. }
      destruct (PyStr.space2 c1 c2).
      { apply (IH (String c3 s3)). simpl. lia. }
      destruct (PyStr.space3 c1 c2 c3); [|reflexivity].
      apply IH. lia.
Qed.

Lemma rstrip_append_newline (x : string) :
  PyStr.rstrip (x ++ newline) = PyStr.rstrip x.
Proof. unfold PyStr.rstrip. now rewrite rev_append. Qed.

(** A line break before and after a text does not survive [strip]. *)
Lemma strip_between_newlines (x : string) :
  PyStr.strip (newline ++ x ++ newline) = PyStr.strip x.
Proof.
  unfold PyStr.strip.
  change (PyStr.lstrip (newline ++ x ++ newline)) with (PyStr.lstrip (x ++ newline)).
  rewrite (lstrip_append_newline_bounded (String.length x) x (le_n _)).
  destruct (PyStr.lstrip x) as [|c s] eqn:E; [reflexivity|].
  apply rstrip_append_newline.
Qed.


Lemma has_pair_two (c a b : ascii) (s : string) :
  has_pair c (String a (String b s))
  = (Ascii.eqb c a && Ascii.eqb c b) || has_pair c (String b s).
Proof. reflexivity. Qed.

Lemma has_pair_other_first (c d : ascii) (s : string) :
  Ascii.eqb c d = false -> has_pair c (String d s) = has_pair c s.
Proof.
  intros H. destruct s as [|e s]; [reflexivity|].
  now rewrite has_pair_two, H.
Qed.

Lemma has_pair_append_other (c d : ascii) (x s : string) :
  Ascii.eqb c d = false -> has_pair c x = false ->
  has_pair c (x ++ String d s) = has_pair c s.
Proof.
  intros Hd. induction x as [|a x IH]; intros Hx.
  - now apply has_pair_other_first.
  - destruct x as [|b x].
    + change (has_pair c (String a (String d s)) = has_pair c s).
      rewrite has_pair_two, Hd, andb_false_r.
      now apply has_pair_other_first.
    + change (has_pair c (String a (String b (x ++ String d s))) = has_pair c s).
      rewrite has_pair_two in Hx |- *.
      apply orb_false_elim in Hx. destruct Hx as [Hab Hx].
      rewrite Hab. now apply IH.
Qed.

(** Between line breaks, a text without [--] has no [--] and does not end
    in [-]. *)
Lemma has_pair_between_newlines (x tail : string) :
  has_pair "-" x = false ->
  has_pair "-" (newline ++ x ++ newline ++ tail) = has_pair "-" tail.
Proof.
  intros Hx. unfold newline.
  change (has_pair "-" (String "010" (x ++ String "010" tail)) = has_pair "-" tail).
  rewrite has_pair_other_first by reflexivity.
  now apply has_pair_append_other.
Qed.

(* ------------------------------------------------------------------------ *)
(** ** From a migration file to a [Migration] *)

Lemma prefix_same (c : ascii) (p s : string) :
  String.prefix (String c p) (String c s) = String.prefix p s.
Proof. simpl. destruct (ascii_dec c c); [reflexivity|congruence]. Qed.

Ltac decide_prefix :=
  repeat (rewrite prefix_same || rewrite prefix_other by discriminate).

(** [-- DOWN] does not start inside [-- UP]. *)
Lemma partition_past_up_marker (tail : string) :
  PyStr.partition "-- DOWN" ("-- UP" ++ tail)
  = match PyStr.partition "-- DOWN" tail with
    | Some (before, after) => Some (("-- UP" ++ before)%string, after)
    | None => None
    end.
Proof.
  change ("-- UP" ++ tail)%string
    with (String "-" (String "-" (String " " (String "U" (String "P" tail))))).
  do 5 (rewrite partition_unfold; decide_prefix).
  now destruct (PyStr.partition "-- DOWN" tail) as [[before after]|].
Qed.

Lemma sections_of_file (up down : string) :
  has_pair "-" up = false ->
  has_pair "-" down = false ->
  PyStr.split ("-- UP" ++ newline ++ up ++ newline
                 ++ "-- DOWN" ++ newline ++ down ++ newline) "-- DOWN"
  = [("-- UP" ++ newline ++ up ++ newline)%string;
     (newline ++ down ++ newline)%string].
Proof.
  intros Hup Hdown.
  assert (Hcut : PyStr.partition "-- DOWN"
                   ("-- UP" ++ newline ++ up ++ newline
                      ++ "-- DOWN" ++ newline ++ down ++ newline)
                 = Some (("-- UP" ++ newline ++ up ++ newline)%string,
                         (newline ++ down ++ newline)%string)).
  { rewrite partition_past_up_marker.
    replace (newline ++ up ++ newline ++ "-- DOWN" ++ newline ++ down ++ newline)%string
      with ((newline ++ up ++ newline) ++ "-- DOWN" ++ newline ++ down ++ newline)%string
      by now rewrite !append_assoc.
    rewrite (partition_skips "-" " DOWN").
    - rewrite partition_unfold, (prefix_append "-- DOWN"), (drop_append "-- DOWN").
      now rewrite append_empty_r.
    - rewrite !append_assoc. now rewrite has_pair_between_newlines. }
  assert (Hsep : "-- DOWN" <> "") by discriminate.
  rewrite (split_cut "-- DOWN" _ _ _ Hsep Hcut).
  f_equal. apply split_uncut, (partition_none_pair "-" " DOWN").
  rewrite <- (append_empty_r (newline ++ down ++ newline)), !append_assoc.
  now rewrite has_pair_between_newlines.
Qed.

Lemma replace_up_marker (body : string) :
  has_pair "-" body = false ->
  PyStr.replace ("-- UP" ++ body) "-- UP" "" = body.
Proof.
  intros Hbody. unfold PyStr.replace.
  assert (Hcut : PyStr.partition "-- UP" ("-- UP" ++ body) = Some ("", body)).
  { now rewrite partition_unfold, (prefix_append "-- UP"), (drop_append "-- UP"). }
  assert (Hsep : "-- UP" <> "") by discriminate.
  rewrite (split_cut "-- UP" _ _ _ Hsep Hcut).
  rewrite split_uncut; [reflexivity|].
  now apply (partition_none_pair "-" " UP").
Qed.


Lemma has_pair_in_newlines (x : string) :
  has_pair "-" x = false -> has_pair "-" (newline ++ x ++ newline) = false.
Proof.
  intros Hx. rewrite <- (append_empty_r (newline ++ x ++ newline)), !append_assoc.
  now rewrite has_pair_between_newlines.
Qed.

(** X13.  A migration file laid out as the test suite writes it, an [-- UP]
    line, the up statements, a [-- DOWN] line, the down statements, each
    part on lines of its own, loads with [up_sql] and [down_sql] the two
    bodies stripped of surrounding white space, provided neither body
    contains [--]; the checksum is that of the stripped up body. *)
Theorem make_migration_sections (v n up down : string) :
  has_pair "-" up = false ->
  has_pair "-" down = false ->
  let m := make_migration v n
             ("-- UP" ++ newline ++ up ++ newline
                ++ "-- DOWN" ++ newline ++ down ++ newline) in
  up_sql m = PyStr.strip up
  /\ down_sql m = PyStr.strip down
  /\ checksum m = calculate_checksum (PyStr.strip up).
Proof.
  intros Hup Hdown m.
  assert (Hu : up_sql m = PyStr.strip up).
  { unfold m, make_migration. cbn [up_sql].
    rewrite (sections_of_file up down Hup Hdown). cbn [nth].
    rewrite replace_up_marker by now apply has_pair_in_newlines.
    apply strip_between_newlines. }
  split; [exact Hu|]. split.
  - unfold m, make_migration. cbn [down_sql].
    rewrite (sections_of_file up down Hup Hdown).
    apply strip_between_newlines.
  - unfold m in *. now rewrite make_migration_checksum, Hu.
Qed.

(** The file the test suite writes for [create_users]. *)
Lemma make_migration_sections_witness :
  let up := ("CREATE TABLE test_create_users (" ++ newline
             ++ "    id SERIAL PRIMARY KEY," ++ newline
             ++ "    name VARCHAR(255) NOT NULL" ++ newline ++ ");" ++ newline)%string in
  let down := "DROP TABLE test_create_users;" in
  let m := make_migration "V001" "create_users"
             ("-- UP" ++ newline ++ up ++ newline
                ++ "-- DOWN" ++ newline ++ down ++ newline) in
  has_pair "-" up = false /\ has_pair "-" down = false
  /\ up_sql m = PyStr.strip up /\ down_sql m = "DROP TABLE test_create_users;".
Proof.
  intros up down m.
  assert (Hup : has_pair "-" up = false) by reflexivity.
  assert (Hdown : has_pair "-" down = false) by reflexivity.
  destruct (make_migration_sections "V001" "create_users" up down Hup Hdown)
    as (Hu & Hd & _).
  split; [exact Hup|]. split; [exact Hdown|]. split; [exact Hu|].
  fold m in Hd. rewrite Hd. reflexivity.
Defined.



(** X15.  A listed file named [<version>__<name>.sql] is loaded as the
    migration with that version and that name, built from its content,
    provided the version has no [__] and no [_] at its end, the name has no
    [__], and neither contains a dot. *)
Theorem well_named_file_is_loaded
    (w : World) (files : list (string * string)) (v n content : string) :
  directory w = Some files ->
  NoDup (listdir files) ->
  In ((v ++ "__" ++ n ++ ".sql")%string, content) files ->
  has_pair "_" (v ++ "_") = false ->
  has_char "." v = false ->
  has_pair "_" n = false ->
  has_char "." n = false ->
  name_parts (v ++ "__" ++ n ++ ".sql") = [v; n]
  /\ well_named (v ++ "__" ++ n ++ ".sql") = true
  /\ In (make_migration v n content) (fst (load_migrations w)).
Proof.
  intros Hdir Hnd Hin Hv Hvdot Hn Hndot.
  assert (Hshape : (v ++ "__" ++ n ++ ".sql")%string
                   = ((v ++ "__" ++ n) ++ ".sql" ++ "")%string).
  { now rewrite !append_assoc. }
  assert (Hdot : has_char "." (v ++ "__" ++ n) = false).
  { rewrite !has_char_append, Hvdot, Hndot. reflexivity. }
  assert (Hreplace : PyStr.replace (v ++ "__" ++ n ++ ".sql") ".sql" ""
                     = (v ++ "__" ++ n)%string).
  { unfold PyStr.replace. rewrite Hshape.
    assert (Hsep : ".sql" <> "") by discriminate.
    rewrite (split_cut ".sql" _ _ _ Hsep
               (partition_at_first_char "." "sql" _ "" Hdot)).
    change (PyStr.split "" ".sql") with [""]. cbn [PyStr.join].
    now rewrite !append_empty_r. }
  assert (Hparts : name_parts (v ++ "__" ++ n ++ ".sql") = [v; n]).
  { unfold name_parts. rewrite Hreplace.
    assert (Hcut : PyStr.partition "__" (v ++ "__" ++ n) = Some (v, n)).
    { rewrite (partition_skips "_" "" v ("__" ++ n) Hv).
      rewrite partition_unfold, (prefix_append "__"), (drop_append "__").
      now rewrite append_empty_r. }
    assert (Hsep : "__" <> "") by discriminate.
    rewrite (split_cut "__" _ _ _ Hsep Hcut). f_equal.
    now apply split_uncut, (partition_none_pair "_" ""). }
  assert (Hsql : PyStr.endswith (v ++ "__" ++ n ++ ".sql") ".sql" = true).
  { replace (v ++ "__" ++ n ++ ".sql")%string with ((v ++ "__" ++ n) ++ ".sql")%string
      by now rewrite !append_assoc.
    apply endswith_append. }
  split; [exact Hparts|]. split.
  - unfold well_named. now rewrite Hsql, Hparts.
  - unfold load_migrations. rewrite Hdir. simpl. rewrite sorted_In.
    rewrite <- (read_file_listed files _ content Hnd Hin).
    apply load_loop_includes; [|exact Hsql|exact Hparts].
    rewrite sorted_In. unfold listdir. apply in_map_iff.
    now exists ((v ++ "__" ++ n ++ ".sql")%string, content).
Qed.

(** V001__create_users.sql among the three sample files. *)
Lemma well_named_file_is_loaded_witness :
  In (make_migration "V001" "create_users" (sample_content "create_users"))
     (fst (load_migrations (world_with three_files))).
Proof.
  assert (Hnd : NoDup (listdir three_files)).
  { vm_compute. repeat constructor; simpl; intuition discriminate. }
  assert (Hin : In (("V001" ++ "__" ++ "create_users" ++ ".sql")%string,
                    sample_content "create_users") three_files).
  { right. left. reflexivity. }
  destruct (well_named_file_is_loaded (world_with three_files) three_files
              "V001" "create_users" (sample_content "create_users")
              eq_refl Hnd Hin eq_refl eq_refl eq_refl eq_refl)
    as (_ & _ & Hloaded).
  exact Hloaded.
Defined.

(* ------------------------------------------------------------------------ *)
(** ** [migrate_up] without a target *)

(** X16.  With no target ([None], or the empty string, which counts as
    none), for any service object: [migrate_up] passes to
    [apply_migration], in loaded order, the loaded migrations whose version
    is not a key of the applied mapping, all of them unless a call fails,
    and none of the others. *)
Theorem migrate_up_without_target
    (self : Service) (target_version : option string) (dry_run : bool)
    (w w0 w1 : World) (migrations : list Migration) (applied : dict) :
  target_version = None \/ target_version = Some "" ->
  self_load_migrations self w = (migrations, w0) ->
  self_get_applied_migrations self w0 = (applied, w1) ->
  let o := migrate_up_run self target_version dry_run w in
  let pending := filter (is_pending applied) migrations in
  (exists rest, pending = map fst (calls o) ++ rest)
  /\ (failed o = 0 -> map fst (calls o) = pending
                      /\ successful o = List.length pending)
  /\ (failed o = 1 -> successful o < List.length pending).
Proof.
  intros Ht Hload Happlied o pending.
  assert (Ho : o = migrate_up_loop self applied target_version dry_run migrations 0 0 w1).
  { unfold o, migrate_up_run. now rewrite Hload, Happlied. }
  assert (Hplan : up_plan applied target_version migrations = pending).
  { unfold up_plan. apply take_while_all. intros m _.
    destruct Ht as [-> | ->]; reflexivity. }
  destruct (migrate_up_loop_plan self applied target_version dry_run migrations 0 0 w1)
    as ([rest Hrest] & Hall).
  destruct (migrate_up_loop_counts self applied target_version dry_run migrations 0 0 w1)
    as (Hs & Hf & _).
  rewrite <- Ho, Hplan in *.
  split; [now exists rest|]. split.
  - intros Hfailed. destruct (Hall Hfailed) as [Hcalls Hok].
    split; [exact Hcalls|].
    rewrite Hs, (all_true_count _ Hok). simpl.
    now rewrite <- Hcalls, length_map.
  - intros Hfailed.
    assert (Hlen : List.length pending = List.length (calls o) + List.length rest).
    { rewrite Hrest, length_app. now rewrite length_map. }
    pose proof (count_split (calls o)) as Hsplit.
    simpl in Hs, Hf. lia.
Qed.

(** Three sample files, V001 in the mapping: V002 and V003 are applied. *)
Lemma migrate_up_without_target_witness :
  let ledger := [("V001", sample_migration "V001" "CREATE TABLE a(id INT);" "")] in
  let self := ServiceWithLedger ledger in
  let o := migrate_up_run self None false (world_with three_files) in
  failed o = 0
  /\ map (fun c => version (fst c)) (calls o) = ["V002"; "V003"]
  /\ successful o = 2.
Proof.
  intros ledger self o.
  assert (Hf : failed o = 0) by (vm_compute; reflexivity).
  destruct (migrate_up_without_target self None false (world_with three_files)
              (world_with three_files) (world_with three_files)
              (fst (load_migrations (world_with three_files))) ledger
              (or_introl eq_refl) eq_refl eq_refl)
    as (_ & Hall & _).
  destruct (Hall Hf) as [Hcalls Hs]. fold o in Hcalls, Hs.
  split; [exact Hf|]. split.
  - rewrite <- (map_map fst version), Hcalls. vm_compute. reflexivity.
  - rewrite Hs. vm_compute. reflexivity.
Defined.

(* ------------------------------------------------------------------------ *)
(** ** The order of versions is the order of their characters *)

Lemma compare_common_prefix (p a b : string) :
  String.compare (p ++ a) (p ++ b) = String.compare a b.
Proof.
  induction p as [|c p IH]; simpl; [reflexivity|].
  now rewrite ascii_compare_refl.
Qed.

(** In an ascending list an item comes before every item with a strictly
    greater version. *)
Lemma ascending_order (l : list Migration) (m1 m2 : Migration) :
  ascending l -> In m1 l -> In m2 l ->
  PyStr.le (version m2) (version m1) = false ->
  exists l1 l2 l3, l = l1 ++ m1 :: l2 ++ m2 :: l3.
Proof.
  unfold ascending. induction 1 as [|x l Hl IH Hx]; intros H1 H2 Hlt; [easy|].
  rewrite Forall_forall in Hx.
  destruct H1 as [->|H1].
  - destruct H2 as [->|H2]; [now rewrite le_refl in Hlt|].
    apply in_split in H2. destruct H2 as (l2 & l3 & ->).
    now exists [], l2, l3.
  - destruct H2 as [->|H2].
    + rewrite (Hx m1 H1) in Hlt. discriminate.
    + destruct (IH H1 H2 Hlt) as (l1 & l2 & l3 & ->).
      now exists (x :: l1), l2, l3.
Qed.

(** X17.  Versions are compared character by character, not as numbers:
    of two loaded migrations whose versions share a prefix and continue
    with [10] and with [2], the one with [10] comes first. *)
Theorem load_migrations_orders_by_characters
    (w : World) (p : string) (m10 m2 : Migration) :
  In m10 (fst (load_migrations w)) ->
  In m2 (fst (load_migrations w)) ->
  version m10 = (p ++ "10")%string ->
  version m2 = (p ++ "2")%string ->
  exists l1 l2 l3, fst (load_migrations w) = l1 ++ m10 :: l2 ++ m2 :: l3.
Proof.
  intros H10 H2 E10 E2.
  apply ascending_order; try assumption; [apply load_migrations_ascending|].
  rewrite E10, E2. unfold PyStr.le, String.leb.
  now rewrite compare_common_prefix.
Qed.

(** Files V1, V2 and V10 load in the order V1, V10, V2. *)
Lemma load_migrations_orders_by_characters_witness :
  let w := world_with [sample_file "V1" "a"; sample_file "V2" "b"; sample_file "V10" "c"] in
  map version (fst (load_migrations w)) = ["V1"; "V10"; "V2"]
  /\ exists l1 l2 l3,
      fst (load_migrations w)
      = l1 ++ make_migration "V10" "c" (sample_content "c")
           :: l2 ++ make_migration "V2" "b" (sample_content "b") :: l3.
Proof.
  intros w. split; [vm_compute; reflexivity|].
  apply (load_migrations_orders_by_characters w "V").
  - vm_compute. right. left. reflexivity.
  - vm_compute. right. right. left. reflexivity.
  - reflexivity.
  - reflexivity.
Defined.

(* ------------------------------------------------------------------------ *)
(** ** The SQL preview of a dry run *)

Lemma take_chars_prefix (n : nat) (s : string) :
  exists rest, s = (PyStr.take_chars n s ++ rest)%string.
Proof.
  revert n. induction s as [|c s IH]; intros n; simpl; [now exists ""|].
  destruct (PyStr.continuation c).
  - destruct (IH n) as [rest Hrest]. exists rest. simpl. now rewrite <- Hrest.
  - destruct n as [|n]; [now exists (String c s)|].
    destruct (IH n) as [rest Hrest]. exists rest. simpl. now rewrite <- Hrest.
Qed.

Lemma take_chars_count (n : nat) (s : string) :
  char_count (PyStr.take_chars n s) <= n.
Proof.
  revert n. induction s as [|c s IH]; intros n; simpl; [lia|].
  destruct (PyStr.continuation c) eqn:E; simpl.
  - rewrite E. apply IH.
  - destruct n as [|n]; simpl; [lia|]. rewrite E. specialize (IH n). lia.
Qed.

Lemma take_chars_short (n : nat) (s : string) :
  char_count s <= n -> PyStr.take_chars n s = s.
Proof.
  revert n. induction s as [|c s IH]; intros n; simpl; [reflexivity|].
  destruct (PyStr.continuation c); simpl; intros H.
  - now rewrite IH.
  - destruct n as [|n]; [lia|]. rewrite IH; [reflexivity|lia].
Qed.

(** X18.  The second line a dry run of [apply_migration] or
    [rollback_migration] prints is [SQL: ], then the first characters of
    the statement, at most 100 of them and all of them when the statement
    has no more, then [...], which is printed whether or not anything was
    cut. *)
Theorem dry_run_preview (m : Migration) (w : World) :
  (exists shown rest,
      stdout (snd (apply_migration m true w))
      = stdout w
        ++ [("[DRY RUN] Would apply migration " ++ version m ++ ": " ++ name m)%string;
            ("SQL: " ++ shown ++ "...")%string]
      /\ up_sql m = (shown ++ rest)%string
      /\ char_count shown <= 100
      /\ (char_count (up_sql m) <= 100 -> shown = up_sql m))
  /\ (exists shown rest,
      stdout (snd (rollback_migration m true w))
      = stdout w
        ++ [("[DRY RUN] Would rollback migration " ++ version m ++ ": " ++ name m)%string;
            ("SQL: " ++ shown ++ "...")%string]
      /\ down_sql m = (shown ++ rest)%string
      /\ char_count shown <= 100
      /\ (char_count (down_sql m) <= 100 -> shown = down_sql m)).
Proof.
  split.
  - destruct (take_chars_prefix 100 (up_sql m)) as [rest Hrest].
    exists (PyStr.take_chars 100 (up_sql m)), rest.
    rewrite apply_dry_run_eq. unfold print; simpl. rewrite <- app_assoc.
    repeat split; [exact Hrest|apply take_chars_count|apply take_chars_short].
  - destruct (take_chars_prefix 100 (down_sql m)) as [rest Hrest].
    exists (PyStr.take_chars 100 (down_sql m)), rest.
    rewrite rollback_dry_run_eq. unfold print; simpl. rewrite <- app_assoc.
    repeat split; [exact Hrest|apply take_chars_count|apply take_chars_short].
Qed.

(** A short statement is shown whole, followed by the dots. *)
Lemma dry_run_preview_witness :
  let m := sample_migration "V001" "CREATE TABLE t(id INT);" "DROP TABLE t;" in
  char_count (up_sql m) <= 100
  /\ exists shown rest,
      stdout (snd (apply_migration m true (world_with [])))
      = stdout (world_with [])
        ++ [("[DRY RUN] Would apply migration " ++ version m ++ ": " ++ name m)%string;
            ("SQL: " ++ shown ++ "...")%string]
      /\ up_sql m = (shown ++ rest)%string
      /\ shown = up_sql m.
Proof.
  intros m.
  assert (Hshort : char_count (up_sql m) <= 100) by (vm_compute; lia).
  split; [exact Hshort|].
  destruct (dry_run_preview m (world_with [])) as [(shown & rest & Hout & Hsplit & _ & Hall) _].
  exists shown, rest. split; [exact Hout|]. split; [exact Hsplit|]. now apply Hall.
Defined.

(* ------------------------------------------------------------------------ *)
(** ** Files with the same version *)

(** X19.  [load_migrations] does not reject files that share a version:
    all of them load, and the migrations of one version come in the order
    of their file names. *)
Theorem load_migrations_keeps_file_order
    (w : World) (files : list (string * string)) (k : string) :
  directory w = Some files ->
  let by_name := load_loop files (sorted (fun f => f) false (listdir files)) in
  filter (fun m => String.eqb (version m) k) (fst (load_migrations w))
  = filter (fun m => String.eqb (version m) k) by_name
  /\ Permutation (fst (load_migrations w)) by_name.
Proof.
  intros Hdir by_name. unfold load_migrations. rewrite Hdir. simpl.
  split; [apply sorted_stable|apply sorted_perm].
Qed.

(** Two files for V001: both load, [a] before [b]. *)
Lemma load_migrations_keeps_file_order_witness :
  let files := [sample_file "V001" "b"; sample_file "V002" "c"; sample_file "V001" "a"] in
  directory (world_with files) = Some files
  /\ map name (filter (fun m => String.eqb (version m) "V001")
                      (fst (load_migrations (world_with files))))
     = ["a"; "b"].
Proof.
  intros files. split; [reflexivity|].
  destruct (load_migrations_keeps_file_order (world_with files) files "V001" eq_refl)
    as [Horder _].
  rewrite Horder. vm_compute. reflexivity.
Defined.

(* ------------------------------------------------------------------------ *)
(** ** [split] and [join] *)

Lemma prefix_drop (p : string) :
  forall s, String.prefix p s = true ->
            s = (p ++ PyStr.drop (String.length p) s)%string.
Proof.
  induction p as [|c p IH]; intros [|d s]; simpl; try easy.
  destruct (ascii_dec c d) as [<-|]; [|discriminate].
  intros H. now rewrite <- (IH s H).
Qed.

(** A cut splits the text around the separator. *)
Lemma partition_sound (sep s : string) :
  forall before after,
    PyStr.partition sep s = Some (before, after) ->
    s = (before ++ sep ++ after)%string.
Proof.
  induction s as [|c s IH]; intros before after; rewrite partition_unfold.
  - destruct (String.prefix sep "") eqn:Hp; [|discriminate].
    intros H. inversion H; subst. now apply prefix_drop.
  - destruct (String.prefix sep (String c s)) eqn:Hp.
    + intros H. inversion H; subst. now apply prefix_drop.
    + destruct (PyStr.partition sep s) as [[b a]|]; [|discriminate].
      intros H. injection H as <- <-. simpl. now rewrite <- (IH b a eq_refl).
Qed.

Lemma split_rounds_not_empty (n : nat) (sep s : string) :
  PyStr.split_rounds n sep s <> [].
Proof.
  destruct n; simpl; [discriminate|].
  now destruct (PyStr.partition sep s) as [[b a]|].
Qed.

Lemma join_cons (sep p : string) (rest : list string) :
  rest <> [] -> PyStr.join sep (p :: rest) = (p ++ sep ++ PyStr.join sep rest)%string.
Proof. destruct rest; [congruence|reflexivity]. Qed.

Lemma join_split_rounds (sep : string) (n : nat) :
  forall s, PyStr.join sep (PyStr.split_rounds n sep s) = s.
Proof.
  induction n as [|n IH]; intros s; simpl; [reflexivity|].
  destruct (PyStr.partition sep s) as [[b a]|] eqn:Hp; [|reflexivity].
  rewrite join_cons by apply split_rounds_not_empty.
  rewrite IH. symmetry. now apply partition_sound.
Qed.

(** X20.  For a non-empty separator, joining the parts [split] returns
    with the separator gives the text back, so [replace(old, old)] returns
    its text unchanged; and [split] returns at least one part and never
    more than the length of the text plus one. *)
Theorem join_split (s sep : string) :
  sep <> "" ->
  PyStr.join sep (PyStr.split s sep) = s
  /\ PyStr.replace s sep sep = s
  /\ 1 <= List.length (PyStr.split s sep) <= String.length s + 1.
Proof.
  intros _.
  assert (Hjoin : PyStr.join sep (PyStr.split s sep) = s)
    by apply join_split_rounds.
  split; [exact Hjoin|]. split; [exact Hjoin|].
  unfold PyStr.split.
  assert (Hlen : forall n t, 1 <= List.length (PyStr.split_rounds n sep t) <= n + 1).
  { induction n as [|n IH]; intros t; simpl; [lia|].
    destruct (PyStr.partition sep t) as [[b a]|]; simpl; [|lia].
    specialize (IH a). lia. }
  apply Hlen.
Qed.

(** A file name cut at [__] and joined again. *)
Lemma join_split_witness :
  "__" <> ""
  /\ PyStr.split "V001__create__users" "__" = ["V001"; "create"; "users"]
  /\ PyStr.join "__" (PyStr.split "V001__create__users" "__") = "V001__create__users".
Proof.
  assert (Hsep : "__" <> "") by discriminate.
  split; [exact Hsep|]. split; [reflexivity|].
  destruct (join_split "V001__create__users" "__" Hsep) as [Hjoin _].
  exact Hjoin.
Defined.
